(** * Eglinton Crosstown delay tracker: the two calculators of [src/App.tsx]

    The program is a React component whose logic sits in three functions,
    [addMonthsClamped], [calculateBreakdown] and [calculateOverrunPercent].
    They work on JavaScript [Date] objects, which are mutable cells holding
    one number, the time value (milliseconds since the epoch, or NaN), and
    which are read and written through the local-time accessors of
    ECMA-262 (section "Date Objects").

    The development has five layers:
    - the day and calendar arithmetic of ECMA-262 on [Z];
    - the host's time zone, a parameter of the local-time accessors;
    - a store of [Date] cells with a small state monad, and the methods of
      [Date] the program calls;
    - the three functions of the program, statement by statement, and one
      tick of the interval callback of [App];
    - the two integer formatters and the texts a [TimerCard] shows.

    JavaScript numbers are IEEE doubles.  Every number the two breakdown
    functions handle is an integer of magnitude below 2^53 or NaN, where
    double arithmetic is exact, so a number is an [option Z] with [None]
    for NaN.  The one fractional value, the overrun percentage, is kept as
    an exact rational. *)

From Stdlib Require Import ZArith QArith Qminmax Lia Ascii String.
From stdpp Require Import list.

Local Open Scope Z_scope.

(** ** Numbers *)

Abbreviation num := (option Z).

Definition NaN : num := None.

Definition nadd (a b : num) : num := x ← a; y ← b; Some (x + y).
Definition nsub (a b : num) : num := x ← a; y ← b; Some (x - y).
Definition nmul (a b : num) : num := x ← a; y ← b; Some (x * y).

(** [Math.floor(a / b)] for a non-zero integer constant [b]. *)
Definition nfloordiv (a : num) (b : Z) : num := x ← a; Some (x / b).

(** [a % b]: the remainder takes the sign of the dividend. *)
Definition nrem (a : num) (b : Z) : num := x ← a; Some (Z.rem x b).

(** [Math.min(a, b)] is NaN as soon as one argument is. *)
Definition nmin (a b : num) : num := x ← a; y ← b; Some (Z.min x y).

(** Comparisons with NaN are false. *)
Definition nleb (a b : num) : bool :=
  match a, b with Some x, Some y => x <=? y | _, _ => false end.
Definition ngtb (a b : num) : bool :=
  match a, b with Some x, Some y => y <? x | _, _ => false end.

Declare Scope num_scope.
Delimit Scope num_scope with num.
Infix "+" := nadd : num_scope.
Infix "-" := nsub : num_scope.
Infix "*" := nmul : num_scope.

(** ** Day and calendar arithmetic (ECMA-262, "Time Values and Time Range") *)

Definition msPerDay : Z := 86400000.
Definition msPerHour : Z := 3600000.
Definition msPerMinute : Z := 60000.
Definition msPerSecond : Z := 1000.

Definition Day (t : Z) : Z := t / msPerDay.
Definition TimeWithinDay (t : Z) : Z := t mod msPerDay.

Definition DaysInYear (y : Z) : Z :=
  if negb (y mod 4 =? 0) then 365
  else if negb (y mod 100 =? 0) then 366
  else if negb (y mod 400 =? 0) then 365
  else 366.

Definition DayFromYear (y : Z) : Z :=
  365 * (y - 1970) + (y - 1969) / 4 - (y - 1901) / 100 + (y - 1601) / 400.

Definition TimeFromYear (y : Z) : Z := msPerDay * DayFromYear y.

(** ECMA-262 defines [YearFromTime t] as the largest [y] with
    [TimeFromYear y <= t].  It is computed here from the mean length of
    the Gregorian year, and corrected by at most one year;
    [YearFromTime_spec] below shows that this is that largest [y]. *)
Definition YearFromTime (t : Z) : Z :=
  let d := Day t in
  let y := 1970 + (400 * d) / 146097 in
  if d <? DayFromYear y then y - 1
  else if DayFromYear (y + 1) <=? d then y + 1
  else y.

Definition leapOf (y : Z) : Z := if DaysInYear y =? 366 then 1 else 0.

Definition InLeapYear (t : Z) : Z := leapOf (YearFromTime t).

Definition DayWithinYear (t : Z) : Z := Day t - DayFromYear (YearFromTime t).

Definition MonthFromTime (t : Z) : Z :=
  let d := DayWithinYear t in
  let l := InLeapYear t in
  if d <? 31 then 0
  else if d <? 59 + l then 1
  else if d <? 90 + l then 2
  else if d <? 120 + l then 3
  else if d <? 151 + l then 4
  else if d <? 181 + l then 5
  else if d <? 212 + l then 6
  else if d <? 243 + l then 7
  else if d <? 273 + l then 8
  else if d <? 304 + l then 9
  else if d <? 334 + l then 10
  else 11.

Definition DateFromTime (t : Z) : Z :=
  let d := DayWithinYear t in
  let l := InLeapYear t in
  match MonthFromTime t with
  | 0 => d + 1
  | 1 => d - 30
  | 2 => d - 58 - l
  | 3 => d - 89 - l
  | 4 => d - 119 - l
  | 5 => d - 150 - l
  | 6 => d - 180 - l
  | 7 => d - 211 - l
  | 8 => d - 242 - l
  | 9 => d - 272 - l
  | 10 => d - 303 - l
  | _ => d - 333 - l
  end.

Definition HourFromTime (t : Z) : Z := (t / msPerHour) mod 24.
Definition MinFromTime (t : Z) : Z := (t / msPerMinute) mod 60.
Definition SecFromTime (t : Z) : Z := (t / msPerSecond) mod 60.
Definition msFromTime (t : Z) : Z := t mod msPerSecond.

(** Number of days of the year before month [m] (0 = January). *)
Definition monthStart (m leap : Z) : Z :=
  match m with
  | 0 => 0
  | 1 => 31
  | 2 => 59 + leap
  | 3 => 90 + leap
  | 4 => 120 + leap
  | 5 => 151 + leap
  | 6 => 181 + leap
  | 7 => 212 + leap
  | 8 => 243 + leap
  | 9 => 273 + leap
  | 10 => 304 + leap
  | _ => 334 + leap
  end.

Definition daysInMonth (y m : Z) : Z :=
  match m with
  | 1 => 28 + leapOf y
  | 3 | 5 | 8 | 10 => 30
  | _ => 31
  end.

(** [MakeDay]: the day number of the first of month [month mod 12] in year
    [year + floor (month / 12)], moved by [date - 1] days.  Months and dates
    out of range carry over. *)
Definition MakeDay (year month date : Z) : Z :=
  let ym := year + month / 12 in
  let mn := month mod 12 in
  DayFromYear ym + monthStart mn (leapOf ym) + date - 1.

Definition MakeTime (hour min sec ms : Z) : Z :=
  hour * msPerHour + min * msPerMinute + sec * msPerSecond + ms.

Definition MakeDate (day time : Z) : Z := day * msPerDay + time.

(** The legacy rule of the [Date] constructor: a year from 0 to 99 means
    19xx. *)
Definition MakeFullYear (y : Z) : Z :=
  if (0 <=? y) && (y <=? 99) then 1900 + y else y.

Definition maxTime : Z := 8640000000000000.

Definition TimeClip (t : Z) : num :=
  if maxTime <? Z.abs t then NaN else Some t.

(** ** The host's time zone

    [tzOffset u] is the offset from UTC in force at the instant [u];
    [tzUTC l] is the instant ECMA-262's [UTC] picks for the local clock
    reading [l] (the earlier one when the reading occurs twice, the reading
    taken at the offset before the transition when it never occurs). *)

Record TimeZone := {
  tzOffset : Z → Z;
  tzUTC : Z → Z
}.

Definition LocalTime (tz : TimeZone) (t : Z) : Z := t + tzOffset tz t.
Definition UTC (tz : TimeZone) (t : Z) : Z := tzUTC tz t.

(** A zone that keeps one offset all year. *)
Definition fixedZone (c : Z) : TimeZone :=
  {| tzOffset := fun _ => c; tzUTC := fun l => l - c |}.

Definition utcZone : TimeZone := fixedZone 0.

(** America/Toronto under the rules in force since 2007: Eastern Standard
    Time (UTC-5), and Eastern Daylight Time (UTC-4) from 02:00 EST on the
    second Sunday of March to 02:00 EDT on the first Sunday of November.
    The rule is applied to every year, so this is the zone for dates from
    2007 on. *)
Definition nthSunday (y m n : Z) : Z :=
  let d1 := MakeDay y m 1 in
  let wd := (d1 + 4) mod 7 in
  d1 + (7 - wd) mod 7 + 7 * (n - 1).

Definition EST : Z := -5 * msPerHour.
Definition EDT : Z := -4 * msPerHour.

Definition torontoDstStart (y : Z) : Z :=
  MakeDate (nthSunday y 2 2) (2 * msPerHour) - EST.
Definition torontoDstEnd (y : Z) : Z :=
  MakeDate (nthSunday y 10 1) (2 * msPerHour) - EDT.

Definition torontoOffset (u : Z) : Z :=
  let y := YearFromTime (u + EST) in
  if (torontoDstStart y <=? u) && (u <? torontoDstEnd y) then EDT else EST.

Definition toronto : TimeZone :=
  {| tzOffset := torontoOffset;
     tzUTC := fun l =>
       if torontoOffset (l - EDT) =? EDT then l - EDT else l - EST |}.

(** America/Asuncion under the rules in force from 2013 to 2024: Paraguay
    Time (UTC-4), and Paraguay Summer Time (UTC-3) from 00:00 PYT on the
    first Sunday of October to 00:00 PYST on the fourth Sunday of March.
    The rule is applied to every year, so this is the zone for dates in
    those years. *)
Definition PYT : Z := -4 * msPerHour.
Definition PYST : Z := -3 * msPerHour.

Definition asuncionDstStart (y : Z) : Z := MakeDate (nthSunday y 9 1) 0 - PYT.
Definition asuncionDstEnd (y : Z) : Z := MakeDate (nthSunday y 2 4) 0 - PYST.

Definition asuncionOffset (u : Z) : Z :=
  let y := YearFromTime (u + PYT) in
  if (asuncionDstEnd y <=? u) && (u <? asuncionDstStart y) then PYT else PYST.

Definition asuncion : TimeZone :=
  {| tzOffset := asuncionOffset;
     tzUTC := fun l =>
       if asuncionOffset (l - PYST) =? PYST then l - PYST else l - PYT |}.

(** A zone with one change of offset, at the instant [switch]. *)
Definition jumpZone (before after switch : Z) : TimeZone :=
  {| tzOffset := fun u => if u <? switch then before else after;
     tzUTC := fun l =>
       if l - before <? switch then l - before
       else if switch <=? l - after then l - after
       else l - before |}.

(** A zone of no country, to show what the calendar of a zone must not do:
    it is on UTC and moves its clocks a day ahead at 06:00 on December 31
    2021, so the local readings from then to 06:00 on January 1 2022 never
    occur. *)
Definition dayAheadZone : TimeZone :=
  jumpZone 0 msPerDay (MakeDate (MakeDay 2021 11 31) (6 * msPerHour)).

(** A zone has a regular calendar when the instant picked for a local
    reading shows the calendar day of that reading, the local calendar day
    never goes back as time advances, and local time stays within a day of
    UTC.  Zones with a fixed offset, [toronto] and [asuncion] have one
    ([fixedZone_regular], [toronto_regular], [asuncion_regular]);
    [dayAheadZone] has not ([dayAheadZone_irregular]). *)
Definition regularZone (tz : TimeZone) : Prop :=
  (∀ l, Day (LocalTime tz (UTC tz l)) = Day l) ∧
  (∀ u1 u2, u1 ≤ u2 → Day (LocalTime tz u1) ≤ Day (LocalTime tz u2)) ∧
  (∀ u, - msPerDay ≤ tzOffset tz u ≤ msPerDay) ∧
  (∀ l, - msPerDay ≤ UTC tz l - l ≤ msPerDay).

(** ** The store of [Date] objects

    A [Date] object is a cell of the store holding its time value; a
    reference to it is the index of the cell.  [new Date] appends a cell, a
    setter overwrites one in place, and two references to one object see
    each other's writes. *)

Abbreviation Heap := (list num).
Abbreviation loc := nat.

Definition M (A : Type) : Type := Heap → A * Heap.

Definition ret {A} (a : A) : M A := fun h => (a, h).
Definition bind {A B} (m : M A) (k : A → M B) : M B :=
  fun h => let (a, h') := m h in k a h'.

Notation "'let*' x ':=' m 'in' k" := (bind m (fun x => k))
  (at level 10, x name, m at level 100, k at level 200).
Notation "m ';;' k" := (bind m (fun _ => k))
  (at level 100, k at level 200, right associativity).

(** The time value of the object at [d]. *)
Definition timeValue (d : loc) (h : Heap) : num := default NaN (h !! d).

Definition readWith (f : Z → Z) (d : loc) : M num :=
  fun h => (f <$> timeValue d h, h).

Definition updateWith (f : Z → num) (d : loc) : M num :=
  fun h => let u := timeValue d h ≫= f in (u, <[d := u]> h).

Section DateMethods.
Context (tz : TimeZone).

  (** [new Date(value)] *)
Definition newDate (value : num) : M loc :=
    fun h => (length h, h ++ [value ≫= TimeClip]).

  (** [new Date(year, month, date)]: midnight, local time. *)
Definition ymdValue (year month date : num) : num :=
    y ← year; m ← month; dt ← date;
    TimeClip (UTC tz (MakeDate (MakeDay (MakeFullYear y) m dt)
                               (MakeTime 0 0 0 0))).

Definition newDateYMD (year month date : num) : M loc :=
    fun h => (length h, h ++ [ymdValue year month date]).

Definition getTime (d : loc) : M num := readWith (fun t => t) d.

Definition getFullYear (d : loc) : M num :=
    readWith (fun t => YearFromTime (LocalTime tz t)) d.
Definition getMonth (d : loc) : M num :=
    readWith (fun t => MonthFromTime (LocalTime tz t)) d.
Definition getDate (d : loc) : M num :=
    readWith (fun t => DateFromTime (LocalTime tz t)) d.
Definition getHours (d : loc) : M num :=
    readWith (fun t => HourFromTime (LocalTime tz t)) d.
Definition getMinutes (d : loc) : M num :=
    readWith (fun t => MinFromTime (LocalTime tz t)) d.

  (** The setters rebuild the local time from its fields with one field
      replaced, and store the instant [UTC] picks for it.  On an invalid
      date, or with a NaN argument, the time value is NaN afterwards.
      [setDateValue] and its like give the new time value from the old. *)
Definition setDateValue (date : num) (t0 : Z) : num :=
    let t := LocalTime tz t0 in
    dt ← date;
    TimeClip (UTC tz (MakeDate (MakeDay (YearFromTime t) (MonthFromTime t) dt)
                               (TimeWithinDay t))).

Definition setMonthValue (month : num) (t0 : Z) : num :=
    let t := LocalTime tz t0 in
    m ← month;
    TimeClip (UTC tz (MakeDate (MakeDay (YearFromTime t) m (DateFromTime t))
                               (TimeWithinDay t))).

Definition setHoursValue (hour : num) (t0 : Z) : num :=
    let t := LocalTime tz t0 in
    hr ← hour;
    TimeClip (UTC tz (MakeDate (Day t)
      (MakeTime hr (MinFromTime t) (SecFromTime t) (msFromTime t)))).

Definition setMinutesValue (min : num) (t0 : Z) : num :=
    let t := LocalTime tz t0 in
    mi ← min;
    TimeClip (UTC tz (MakeDate (Day t)
      (MakeTime (HourFromTime t) mi (SecFromTime t) (msFromTime t)))).

Definition setDate (d : loc) (date : num) : M num :=
    updateWith (setDateValue date) d.
Definition setMonth (d : loc) (month : num) : M num :=
    updateWith (setMonthValue month) d.
Definition setHours (d : loc) (hour : num) : M num :=
    updateWith (setHoursValue hour) d.
Definition setMinutes (d : loc) (min : num) : M num :=
    updateWith (setMinutesValue min) d.

  (** ** The program *)

Record TimeBreakdown := {
    years : num;
    months : num;
    days : num;
    hours : num;
    minutes : num;
    seconds : num
  }.

Definition addMonthsClamped (date : loc) (monthsToAdd : num) : M loc :=
    let* t := getTime date in
    let* next := newDate t in
    let* originalDay := getDate next in
    setDate next (Some 1);;
    let* m := getMonth next in
    setMonth next (m + monthsToAdd)%num;;
    let* y := getFullYear next in
    let* m' := getMonth next in
    let* lastDate := newDateYMD y (m' + Some 1)%num (Some 0) in
    let* lastDayOfTargetMonth := getDate lastDate in
    setDate next (nmin originalDay lastDayOfTargetMonth);;
    ret next.

Definition dayMs : Z := 24 * 60 * 60 * 1000.
Definition hourMs : Z := 60 * 60 * 1000.
Definition minuteMs : Z := 60 * 1000.

Definition calculateBreakdown (startDate now : loc) : M TimeBreakdown :=
    let* n0 := getTime now in
    let* s0 := getTime startDate in
    if nleb n0 s0 then
      ret {| years := Some 0; months := Some 0; days := Some 0;
             hours := Some 0; minutes := Some 0; seconds := Some 0 |}
    else
      let* s := getTime startDate in
      let* start := newDate s in
      let* nowYear := getFullYear now in
      let* startYear := getFullYear start in
      let* nowMonth := getMonth now in
      let* startMonth := getMonth start in
      let totalMonths :=
        ((nowYear - startYear) * Some 12 + (nowMonth - startMonth))%num in
      let* anchor0 := addMonthsClamped start totalMonths in
      let* a0 := getTime anchor0 in
      let* n1 := getTime now in
      let* adjusted :=
        (if ngtb a0 n1 then
           let* anchor1 :=
             addMonthsClamped start (totalMonths - Some 1)%num in
           ret ((totalMonths - Some 1)%num, anchor1)
         else ret (totalMonths, anchor0)) in
      let adjustedTotalMonths := adjusted.1 in
      let anchor := adjusted.2 in
      let years := nfloordiv adjustedTotalMonths 12 in
      let months := nrem adjustedTotalMonths 12 in
      let* n2 := getTime now in
      let* a1 := getTime anchor in
      let remainingMs := (n2 - a1)%num in
      let days := nfloordiv remainingMs dayMs in
      let* d := getDate anchor in
      setDate anchor (d + days)%num;;
      let* n3 := getTime now in
      let* a2 := getTime anchor in
      let remainingMs := (n3 - a2)%num in
      let hours := nfloordiv remainingMs hourMs in
      let* hr := getHours anchor in
      setHours anchor (hr + hours)%num;;
      let* n4 := getTime now in
      let* a3 := getTime anchor in
      let remainingMs := (n4 - a3)%num in
      let minutes := nfloordiv remainingMs minuteMs in
      let* mi := getMinutes anchor in
      setMinutes anchor (mi + minutes)%num;;
      let* n5 := getTime now in
      let* a4 := getTime anchor in
      let remainingMs := (n5 - a4)%num in
      let seconds := nfloordiv remainingMs 1000 in
      ret {| years := years; months := months; days := days;
             hours := hours; minutes := minutes; seconds := seconds |}.
End DateMethods.

(** ** The module-level constants and the overrun calculator *)

(** [Date.parse] of an ISO string [YYYY-MM-DDTHH:mm:ss+hh:mm], the zone
    designator given in minutes east of UTC. *)
Definition parseISO (y mo d hh mi ss offsetMinutes : Z) : num :=
  TimeClip (MakeDate (MakeDay y (mo - 1) d) (MakeTime hh mi ss 0)
            - offsetMinutes * msPerMinute).

(** The two constant [Date] objects are the first two cells of the store. *)
Definition BREAK_GROUND_DATE : loc := 0%nat.
Definition PROJECTED_OPEN_DATE : loc := 1%nat.

Definition moduleHeap : Heap :=
  [ parseISO 2011 11 9 0 0 0 (-300);     (* '2011-11-09T00:00:00-05:00' *)
    parseISO 2020 12 31 0 0 0 (-300) ].  (* '2020-12-31T00:00:00-05:00' *)

Definition PLANNED_DURATION_MS : num :=
  (timeValue PROJECTED_OPEN_DATE moduleHeap
   - timeValue BREAK_GROUND_DATE moduleHeap)%num.

(** [(a / b) * 100] on numbers; the quotient is not an integer. *)
Definition npercent (a b : num) : option Q :=
  x ← a; y ← b; Some ((inject_Z x / inject_Z y) * 100)%Q.

(** The body of [calculateOverrunPercent], for any planned duration. *)
Definition overrunPercentOf (planned : num) (now : loc) : M (option Q) :=
  if nleb planned (Some 0) then ret (Some 0%Q)
  else
    let* n := getTime now in
    let* b := getTime BREAK_GROUND_DATE in
    let totalElapsed := (n - b)%num in
    let overrunMs := (totalElapsed - planned)%num in
    if nleb overrunMs (Some 0) then ret (Some 0%Q)
    else ret (npercent overrunMs planned).

Definition calculateOverrunPercent (now : loc) : M (option Q) :=
  overrunPercentOf PLANNED_DURATION_MS now.

(** One tick of the interval callback in [App]: [new Date()] reads the
    clock, then the three calculators run on it. *)
Record TimerState := {
  breakGround : TimeBreakdown;
  projectedOpen : TimeBreakdown;
  overrunPercent : option Q
}.

Definition tick (tz : TimeZone) (clock : Z) : M TimerState :=
  let* now := newDate (Some clock) in
  let* bg := calculateBreakdown tz BREAK_GROUND_DATE now in
  let* po := calculateBreakdown tz PROJECTED_OPEN_DATE now in
  let* ov := calculateOverrunPercent now in
  ret {| breakGround := bg; projectedOpen := po; overrunPercent := ov |}.

(** ** What a card shows

    [TimerCard] renders a breakdown through two number formatters of the
    locale en-US: [toLocaleString], and [twoDigitFormatter] with at least two
    integer digits.  On an integer both write a minus sign if it is negative,
    the decimal digits padded with zeros to the minimum, and a comma between
    groups of three digits; NaN is written "NaN".  The card is kept as the
    texts it shows: the title, the six values with their labels, and the
    caption. *)

Definition digitChar (d : Z) : ascii := ascii_of_nat (48 + Z.to_nat d).

Fixpoint digitsGo (fuel : nat) (x : Z) (acc : list ascii) : list ascii :=
  match fuel with
  | O => acc
  | S fuel' =>
      let acc' := digitChar (x mod 10) :: acc in
      if x / 10 =? 0 then acc' else digitsGo fuel' (x / 10) acc'
  end.

Definition integerDigits (x : Z) : list ascii :=
  digitsGo (S (Z.to_nat (Z.log2 x))) x [].

Definition padDigits (minimumIntegerDigits : nat) (ds : list ascii) : list ascii :=
  replicate (minimumIntegerDigits - length ds) "0"%char ++ ds.

Fixpoint groupGo (count : nat) (reversed : list ascii) : list ascii :=
  match reversed with
  | [] => []
  | d :: rest =>
      if (count =? 3)%nat then ","%char :: d :: groupGo 1 rest
      else d :: groupGo (S count) rest
  end.

Definition groupDigits (ds : list ascii) : list ascii :=
  rev (groupGo 0 (rev ds)).

Definition formatInteger (minimumIntegerDigits : nat) (x : num) : string :=
  match x with
  | None => "NaN"%string
  | Some z =>
      string_of_list_ascii
        ((if z <? 0 then ["-"%char] else [])
         ++ groupDigits (padDigits minimumIntegerDigits (integerDigits (Z.abs z))))
  end.

Definition twoDigitFormatter : num → string := formatInteger 2.
Definition toLocaleString : num → string := formatInteger 1.

Record TimerCardView := {
  cardTitle : string;
  cardParts : list (string * string);
  cardCaption : string
}.

Definition TimerCard (title caption : string) (breakdown : TimeBreakdown)
  : TimerCardView :=
  {| cardTitle := title;
     cardParts :=
       [ (toLocaleString (years breakdown), "years"%string);
         (toLocaleString (months breakdown), "months"%string);
         (toLocaleString (days breakdown), "days"%string);
         (twoDigitFormatter (hours breakdown), "hours"%string);
         (twoDigitFormatter (minutes breakdown), "minutes"%string);
         (twoDigitFormatter (seconds breakdown), "seconds"%string) ];
     cardCaption := caption |}.

(** Reading back a text of decimal digits, as a reader of the card does. *)
Definition digitValue (a : ascii) : option Z :=
  let n := Z.of_nat (nat_of_ascii a) in
  if (48 <=? n) && (n <=? 57) then Some (n - 48) else None.

Fixpoint readDigits (acc : Z) (s : string) : option Z :=
  match s with
  | EmptyString => Some acc
  | String a rest =>
      match digitValue a with
      | Some d => readDigits (acc * 10 + d) rest
      | None => None
      end
  end.

Definition readInteger (s : string) : option Z :=
  match s with
  | EmptyString => None
  | _ => readDigits 0 s
  end.


(** The store after one tick for each clock reading of [clocks]. *)
Fixpoint storeAfterTicks (tz : TimeZone) (clocks : list Z) (h : Heap) : Heap :=
  match clocks with
  | [] => h
  | clock :: rest => storeAfterTicks tz rest (tick tz clock h).2
  end.

(** ** Functional reading of the two date functions

    What [addMonthsClamped] and [calculateBreakdown] compute, as functions
    of the time values of their arguments: the result, and the time values
    of the cells they allocate, in allocation order.  [addMonthsClamped_run]
    and [calculateBreakdown_run] show that the programs above compute
    exactly these on every store. *)

Section FunctionalReading.
Context (tz : TimeZone).

Definition localField (f : Z → Z) (t : num) : num :=
    (fun t0 => f (LocalTime tz t0)) <$> t.

  (** Final time values of [next] and of the end-of-month date. *)
Definition addMonthsValue (t monthsToAdd : num) : num * num :=
    let next0 := t ≫= TimeClip in
    let originalDay := localField DateFromTime next0 in
    let next1 := next0 ≫= setDateValue tz (Some 1) in
    let m := localField MonthFromTime next1 in
    let next2 := next1 ≫= setMonthValue tz (m + monthsToAdd)%num in
    let y := localField YearFromTime next2 in
    let m' := localField MonthFromTime next2 in
    let lastDate := ymdValue tz y (m' + Some 1)%num (Some 0) in
    let lastDayOfTargetMonth := localField DateFromTime lastDate in
    (next2 ≫= setDateValue tz (nmin originalDay lastDayOfTargetMonth),
     lastDate).

Definition zeroBreakdown : TimeBreakdown :=
    {| years := Some 0; months := Some 0; days := Some 0;
       hours := Some 0; minutes := Some 0; seconds := Some 0 |}.

Definition totalMonthsValue (start now : num) : num :=
    ((localField YearFromTime now - localField YearFromTime start) * Some 12
     + (localField MonthFromTime now - localField MonthFromTime start))%num.

  (** Whether the month count is decremented. *)
Definition decrements (start now : num) : bool :=
    ngtb (addMonthsValue start (totalMonthsValue start now)).1 now.

Definition adjustedMonthsValue (start now : num) : num :=
    if decrements start now
    then (totalMonthsValue start now - Some 1)%num
    else totalMonthsValue start now.

  (** The anchor after the month adjustment, before any unit is peeled. *)
Definition monthAnchorValue (start now : num) : num :=
    (addMonthsValue start (adjustedMonthsValue start now)).1.

Definition peelDays (anchor now : num) : num :=
    nfloordiv (now - anchor)%num dayMs.
Definition afterDays (anchor now : num) : num :=
    anchor ≫= setDateValue tz
      (localField DateFromTime anchor + peelDays anchor now)%num.
Definition peelHours (anchor now : num) : num :=
    nfloordiv (now - anchor)%num hourMs.
Definition afterHours (anchor now : num) : num :=
    anchor ≫= setHoursValue tz
      (localField HourFromTime anchor + peelHours anchor now)%num.
Definition peelMinutes (anchor now : num) : num :=
    nfloordiv (now - anchor)%num minuteMs.
Definition afterMinutes (anchor now : num) : num :=
    anchor ≫= setMinutesValue tz
      (localField MinFromTime anchor + peelMinutes anchor now)%num.

Definition breakdownValue (s0 now : num) : TimeBreakdown :=
    if nleb now s0 then zeroBreakdown
    else
      let start := s0 ≫= TimeClip in
      let adjusted := adjustedMonthsValue start now in
      let a1 := monthAnchorValue start now in
      let a2 := afterDays a1 now in
      let a3 := afterHours a2 now in
      let a4 := afterMinutes a3 now in
      {| years := nfloordiv adjusted 12;
         months := nrem adjusted 12;
         days := peelDays a1 now;
         hours := peelHours a2 now;
         minutes := peelMinutes a3 now;
         seconds := nfloordiv (now - a4)%num 1000 |}.

  (** The cells [calculateBreakdown] leaves behind. *)
Definition breakdownCells (s0 now : num) : list num :=
    if nleb now s0 then []
    else
      let start := s0 ≫= TimeClip in
      let total := totalMonthsValue start now in
      let first := addMonthsValue start total in
      let a1 := monthAnchorValue start now in
      let a4 := afterMinutes (afterHours (afterDays a1 now) now) now in
      if decrements start now
      then [start; first.1; first.2; a4;
            (addMonthsValue start (total - Some 1)%num).2]
      else [start; a4; first.2].
End FunctionalReading.

(** ** Two readings of the specification, to compare with the program *)

(** The reconstruction law: [start] moved [years * 12 + months] calendar
    months on by [addMonthsClamped], then advanced by [days], [hours] and
    [minutes] the way the program advances its anchor, with [setDate],
    [setHours] and [setMinutes].  The program never advances by the seconds:
    they are added to the time value. *)
Definition reconstruct (tz : TimeZone) (startDate : loc) (b : TimeBreakdown)
  : M num :=
  let* anchor :=
    addMonthsClamped tz startDate (years b * Some 12 + months b)%num in
  let* d := getDate tz anchor in
  setDate tz anchor (d + days b)%num;;
  let* hr := getHours tz anchor in
  setHours tz anchor (hr + hours b)%num;;
  let* mi := getMinutes tz anchor in
  setMinutes tz anchor (mi + minutes b)%num;;
  let* t := getTime anchor in
  ret (t + seconds b * Some 1000)%num.

(** The four small units taken from the one gap between [now] and the
    month-adjusted anchor, each by its own floor division: as they come
    ([independentFloors]), and reduced to a clock reading
    ([independentUnits]). *)
Definition independentFloors (gap : num) : num * num * num * num :=
  (nfloordiv gap dayMs, nfloordiv gap hourMs,
   nfloordiv gap minuteMs, nfloordiv gap 1000).

Definition independentUnits (gap : num) : num * num * num * num :=
  (nfloordiv gap dayMs,
   (fun x => x mod 24) <$> nfloordiv gap hourMs,
   (fun x => x mod 60) <$> nfloordiv gap minuteMs,
   (fun x => x mod 60) <$> nfloordiv gap 1000).

Definition loopUnits (b : TimeBreakdown) : num * num * num * num :=
  (days b, hours b, minutes b, seconds b).

(** ** The claims' words, as predicates and test programs *)

(** The bounds the specification gives for a breakdown, the bound on the
    days taken from a month of [anchorMonthLength] days. *)
Definition claimedBounds (anchorMonthLength : Z) (b : TimeBreakdown) : Prop :=
  ∃ y mo d hh mi ss,
    b = {| years := Some y; months := Some mo; days := Some d;
           hours := Some hh; minutes := Some mi; seconds := Some ss |} ∧
    0 ≤ y ∧ 0 ≤ mo ≤ 11 ∧ 0 ≤ d ≤ anchorMonthLength - 1 ∧
    0 ≤ hh ≤ 23 ∧ 0 ≤ mi ≤ 59 ∧ 0 ≤ ss ≤ 59.

(** The specification's leap-year case: both dates are made from local
    calendar fields, as [new Date(2020, 0, 31)] and [new Date(2020, 2, 1)]. *)
Definition leapYearCase (tz : TimeZone) : M TimeBreakdown :=
  let* start := newDateYMD tz (Some 2020) (Some 0) (Some 31) in
  let* now := newDateYMD tz (Some 2020) (Some 2) (Some 1) in
  calculateBreakdown tz start now.

Definition breakdownOf (y mo d hh mi ss : num) : TimeBreakdown :=
  {| years := y; months := mo; days := d;
     hours := hh; minutes := mi; seconds := ss |}.

(** A store holding just the two arguments of [calculateBreakdown]. *)
Definition twoDates (start now : num) : Heap := [start; now].

Definition breakdownAt (tz : TimeZone) (start now : num) : TimeBreakdown :=
  (calculateBreakdown tz 0%nat 1%nat (twoDates start now)).1.

(** [addMonthsClamped] on a date of time value [t] alone in the store: the
    time value of the date it returns. *)
Definition addMonthsAt (tz : TimeZone) (t : num) (monthsToAdd : Z) : num :=
  let r := addMonthsClamped tz 0%nat (Some monthsToAdd) [t] in
  timeValue r.1 r.2.

(** The reconstruction from the breakdown of [start] and [now]. *)
Definition reconstructAt (tz : TimeZone) (start now : num) : num :=
  let r := calculateBreakdown tz 0%nat 1%nat (twoDates start now) in
  (reconstruct tz 0%nat r.1 r.2).1.

(** What a breakdown shows, as two counters: whole months, and the whole
    seconds counted beyond them. *)
Definition wholeMonths (b : TimeBreakdown) : num :=
  (years b * Some 12 + months b)%num.

Definition wholeSeconds (b : TimeBreakdown) : num :=
  (days b * Some 86400 + hours b * Some 3600 + minutes b * Some 60
   + seconds b)%num.

(** ** Ranges *)

Definition inRange (t : Z) : Prop := - maxTime ≤ t ≤ maxTime.

(** At least 64 days away from both ends of the range of time values. *)
Definition wellInside (t : Z) : Prop :=
  - maxTime + 64 * msPerDay ≤ t ≤ maxTime - 64 * msPerDay.


(** ** Months counted from January of year 0

    [monthIndex t] numbers the calendar month [t] falls in, [firstDay k] is
    the day number of the first of month [k], and [monthLength k] its number
    of days.  [addMonthsClamped] moves a date along this line. *)

Definition monthIndex (t : Z) : Z := YearFromTime t * 12 + MonthFromTime t.
Definition firstDay (k : Z) : Z := MakeDay 0 k 1.
Definition monthLength (k : Z) : Z := daysInMonth (k / 12) (k mod 12).

(** The length the program finds for month [k]: it asks the [Date]
    constructor, which reads a year from 0 to 99 as 19xx. *)
Definition monthLengthSeen (k : Z) : Z :=
  daysInMonth (MakeFullYear (k / 12)) (k mod 12).

(** The local time [addMonthsClamped] aims at, [N] months after the local
    time [L]: the first of the target month, moved to the day of [L] or to
    the last day the program sees in that month, at the time of day of [L]. *)
Definition clampedLocal (L N : Z) : Z :=
  (firstDay (monthIndex L + N)
   + Z.min (DateFromTime L) (monthLengthSeen (monthIndex L + N)) - 1) * msPerDay
  + TimeWithinDay L.

(** * Calendar arithmetic *)

Lemma DayFromYear_succ y : DayFromYear (y + 1) = DayFromYear y + DaysInYear y.
Proof.
  unfold DayFromYear, DaysInYear.
  repeat match goal with |- context [?a =? ?b] => destruct (Z.eqb_spec a b); simpl end;
  Z.div_mod_to_equations; lia.
Qed.
Lemma DayFromYear_linear y :
  146097 * (y - 1970) - 506 ≤ 400 * DayFromYear y ≤ 146097 * (y - 1970) + 589.
Proof. unfold DayFromYear. Z.div_mod_to_equations. lia. Qed.
Lemma DayFromYear_lt y1 y2 : y1 < y2 → DayFromYear y1 < DayFromYear y2.
Proof.
  intros H. pose proof (DayFromYear_linear y1). pose proof (DayFromYear_linear y2). lia.
Qed.
Lemma DayFromYear_le y1 y2 : y1 ≤ y2 → DayFromYear y1 ≤ DayFromYear y2.
Proof.
  intros H. destruct (Z.eq_dec y1 y2) as [->|]; [lia|].
  apply Z.lt_le_incl, DayFromYear_lt. lia.
Qed.
Lemma YearFromTime_spec t :
  DayFromYear (YearFromTime t) ≤ Day t < DayFromYear (YearFromTime t + 1).
Proof.
  unfold YearFromTime. set (d := Day t). set (y := 1970 + 400 * d / 146097).
  assert (Hy : 146097 * (y - 1970) ≤ 400 * d < 146097 * (y - 1970) + 146097).
  { unfold y. Z.div_mod_to_equations. lia. }
  clearbody y d.
  pose proof (DayFromYear_linear (y - 1)).
  pose proof (DayFromYear_linear y).
  pose proof (DayFromYear_linear (y + 1)).
  pose proof (DayFromYear_linear (y + 1 + 1)).
  destruct (Z.ltb_spec d (DayFromYear y)).
  { replace (y - 1 + 1) with y by lia. lia. }
  destruct (Z.leb_spec (DayFromYear (y + 1)) d); lia.
Qed.
Lemma YearFromTime_unique t y :
  DayFromYear y ≤ Day t < DayFromYear (y + 1) → YearFromTime t = y.
Proof.
  intros H. pose proof (YearFromTime_spec t) as H'.
  destruct (Z.lt_trichotomy (YearFromTime t) y) as [Hlt|[Heq|Hgt]]; [|done|].
  - assert (DayFromYear (YearFromTime t + 1) ≤ DayFromYear y) by (apply DayFromYear_le; lia). lia.
  - assert (DayFromYear (y + 1) ≤ DayFromYear (YearFromTime t)) by (apply DayFromYear_le; lia). lia.
Qed.

Lemma leapOf_cases y : leapOf y = 0 ∨ leapOf y = 1.
Proof. unfold leapOf. case_match; auto. Qed.

Lemma DaysInYear_leapOf y : DaysInYear y = 365 + leapOf y.
Proof. unfold leapOf, DaysInYear. repeat case_match; simpl in *; try lia; done. Qed.

Lemma DayWithinYear_range t : 0 ≤ DayWithinYear t < 365 + InLeapYear t.
Proof.
  unfold DayWithinYear, InLeapYear. pose proof (YearFromTime_spec t) as H.
  rewrite DayFromYear_succ, DaysInYear_leapOf in H. lia.
Qed.

Lemma month_cases m : 0 ≤ m ≤ 11 →
  m = 0 ∨ m = 1 ∨ m = 2 ∨ m = 3 ∨ m = 4 ∨ m = 5 ∨ m = 6 ∨ m = 7 ∨ m = 8 ∨ m = 9 ∨ m = 10 ∨ m = 11.
Proof. lia. Qed.

Ltac month_split m H :=
  let Hm := fresh in
  pose proof (month_cases m H) as Hm;
  destruct Hm as [->|[->|[->|[->|[->|[->|[->|[->|[->|[->|[->| ->]]]]]]]]]]].

Ltac split_ltb :=
  repeat match goal with
  | |- context [?a <? ?b] => destruct (Z.ltb_spec a b)
  end.

Lemma MakeDay_month y m d : 0 ≤ m ≤ 11 →
  MakeDay y m d = DayFromYear y + monthStart m (leapOf y) + d - 1.
Proof.
  intros H. unfold MakeDay. rewrite Z.div_small, Z.mod_small, Z.add_0_r by lia. done.
Qed.

Lemma MakeDay_carry y m d :
  MakeDay y m d = MakeDay (y + m / 12) (m mod 12) d.
Proof.
  unfold MakeDay. rewrite Z.mod_mod by lia.
  rewrite (Z.div_small (m mod 12) 12), Z.add_0_r; [done|]. apply Z.mod_pos_bound. lia.
Qed.

Lemma MakeDay_date y m d k : MakeDay y m (d + k) = MakeDay y m d + k.
Proof. unfold MakeDay. lia. Qed.

Lemma MonthFromTime_range t : 0 ≤ MonthFromTime t ≤ 11.
Proof. unfold MonthFromTime. split_ltb; lia. Qed.

Lemma civil_Day t :
  Day t = MakeDay (YearFromTime t) (MonthFromTime t) (DateFromTime t).
Proof.
  rewrite MakeDay_month by apply MonthFromTime_range.
  pose proof (DayWithinYear_range t) as Hd.
  unfold DateFromTime, MonthFromTime, InLeapYear in *.
  unfold DayWithinYear in *. set (l := leapOf (YearFromTime t)) in *. 
  split_ltb; simpl; lia.
Qed.

Lemma DateFromTime_range t :
  1 ≤ DateFromTime t ≤ daysInMonth (YearFromTime t) (MonthFromTime t).
Proof.
  pose proof (DayWithinYear_range t) as Hd.
  unfold DateFromTime, MonthFromTime, InLeapYear in *.
  set (dw := DayWithinYear t) in *. set (l := leapOf (YearFromTime t)) in *.
  split_ltb; simpl; fold l; lia.
Qed.

Lemma monthStart_date_range y m d : 0 ≤ m ≤ 11 → 1 ≤ d ≤ daysInMonth y m →
  0 ≤ monthStart m (leapOf y) + d - 1 < 365 + leapOf y.
Proof.
  intros Hm Hd. pose proof (leapOf_cases y).
  month_split m Hm; simpl in *; lia.
Qed.

Lemma civil_of_MakeDay y m d t :
  0 ≤ m ≤ 11 → 1 ≤ d ≤ daysInMonth y m → Day t = MakeDay y m d →
  YearFromTime t = y ∧ MonthFromTime t = m ∧ DateFromTime t = d.
Proof.
  intros Hm Hd Ht. rewrite MakeDay_month in Ht by done.
  pose proof (monthStart_date_range y m d Hm Hd) as Hr.
  assert (Hy : YearFromTime t = y).
  { apply YearFromTime_unique. rewrite DayFromYear_succ, DaysInYear_leapOf. lia. }
  assert (Hmo : MonthFromTime t = m).
  { unfold MonthFromTime, DayWithinYear, InLeapYear. rewrite Hy, Ht.
    pose proof (leapOf_cases y).
    month_split m Hm; simpl in *; split_ltb; lia. }
  split; [done|]. split; [done|].
  unfold DateFromTime. rewrite Hmo. unfold DayWithinYear, InLeapYear. rewrite Hy, Ht.
  month_split m Hm; simpl; lia.
Qed.

(** * The programs compute their functional reading *)

Lemma timeValue_app_l (l : loc) (h e : Heap) :
  (l < length h)%nat → timeValue l (h ++ e) = timeValue l h.
Proof. intros H. unfold timeValue. by rewrite lookup_app_l. Qed.

Lemma timeValue_new (h e : Heap) v : timeValue (length h) (h ++ v :: e) = v.
Proof. unfold timeValue. by rewrite list_lookup_middle. Qed.

Lemma insert_new (h e : Heap) u v : <[length h := u]> (h ++ v :: e) = h ++ u :: e.
Proof. rewrite insert_app_r_alt by lia. by rewrite Nat.sub_diag. Qed.

Lemma fmap_id_num (x : num) : (fun t => t) <$> x = x.
Proof. by destruct x. Qed.

Lemma readWith_run f d h : readWith f d h = (f <$> timeValue d h, h).
Proof. done. Qed.
Lemma readWith_new f (h e : Heap) v :
  readWith f (length h) (h ++ v :: e) = (f <$> v, h ++ v :: e).
Proof. unfold readWith. by rewrite timeValue_new. Qed.
Lemma updateWith_new f (h e : Heap) v :
  updateWith f (length h) (h ++ v :: e) = (v ≫= f, h ++ (v ≫= f) :: e).
Proof. unfold updateWith. by rewrite timeValue_new, insert_new. Qed.
Lemma snoc_snoc (h : Heap) a e : (h ++ [a]) ++ e = h ++ a :: e.
Proof. by rewrite <- app_assoc. Qed.

Ltac run_step :=
  unfold bind at 1;
  first
    [ rewrite readWith_new
    | rewrite updateWith_new
    | rewrite readWith_run ];
  cbv beta iota.

Section Run.
Context (tz : TimeZone).

Lemma addMonthsClamped_run d N h :
  addMonthsClamped tz d N h =
  (length h, h ++ [(addMonthsValue tz (timeValue d h) N).1;
                   (addMonthsValue tz (timeValue d h) N).2]).
Proof.
  unfold addMonthsClamped, getTime, getDate, getMonth, getFullYear,
    setDate, setMonth.
  run_step. rewrite fmap_id_num.
  unfold bind at 1, newDate at 1. cbv beta iota.
  do 6 run_step.
  unfold bind at 1, newDateYMD at 1. cbv beta iota.
  run_step. rewrite snoc_snoc. run_step.
  done.
Qed.

Lemma readWith_old f (l : loc) (h e : Heap) :
  (l < length h)%nat → readWith f l (h ++ e) = (f <$> timeValue l h, h ++ e).
Proof. intros H. unfold readWith. by rewrite timeValue_app_l. Qed.
Lemma readWith_old2 f (l : loc) (h e1 e2 : Heap) :
  (l < length h)%nat →
  readWith f l ((h ++ e1) ++ e2) = (f <$> timeValue l h, (h ++ e1) ++ e2).
Proof.
  intros H. unfold readWith. rewrite !timeValue_app_l; [done..|].
  rewrite length_app. lia.
Qed.

Ltac read_old :=
  unfold bind at 1;
  rewrite readWith_old by (rewrite ?length_app; simpl; lia);
  rewrite ?timeValue_app_l by (rewrite ?length_app; simpl; lia);
  cbv beta iota.

Lemma calculateBreakdown_run sd nw h :
  (sd < length h)%nat → (nw < length h)%nat →
  calculateBreakdown tz sd nw h =
  (breakdownValue tz (timeValue sd h) (timeValue nw h),
   h ++ breakdownCells tz (timeValue sd h) (timeValue nw h)).
Proof.
  intros Hsd Hnw.
  unfold calculateBreakdown, breakdownValue, breakdownCells.
  unfold getTime, getDate, getMonth, getFullYear, getHours, getMinutes,
    setDate, setHours, setMinutes.
  do 2 run_step. rewrite !fmap_id_num.
  destruct (nleb (timeValue nw h) (timeValue sd h)).
  { unfold ret. by rewrite app_nil_r. }
  run_step. rewrite fmap_id_num.
  unfold bind at 1, newDate at 1. cbv beta iota.
  set (start := timeValue sd h ≫= TimeClip).
  set (n := timeValue nw h).
  read_old. fold n. run_step. read_old. fold n. run_step.
  change ((((λ t : Z, YearFromTime (LocalTime tz t)) <$> n) -
           ((λ t : Z, YearFromTime (LocalTime tz t)) <$> start)) * Some 12 +
          (((λ t : Z, MonthFromTime (LocalTime tz t)) <$> n) -
           ((λ t : Z, MonthFromTime (LocalTime tz t)) <$> start)))%num
    with (totalMonthsValue tz start n).
  set (total := totalMonthsValue tz start n).
  unfold bind at 1. rewrite addMonthsClamped_run, timeValue_new. cbv beta iota.
  run_step. read_old. fold n. rewrite !fmap_id_num.
  unfold monthAnchorValue, adjustedMonthsValue, decrements. fold total.
  set (first := addMonthsValue tz start total).
  unfold bind at 1.
  destruct (ngtb first.1 n).
  - unfold bind at 1. rewrite addMonthsClamped_run.
    rewrite timeValue_app_l, timeValue_new by (rewrite ?length_app; simpl; lia).
    unfold ret at 1. cbv beta iota. cbn [fst snd].
    set (second := addMonthsValue tz start (total - Some 1)%num).
    read_old. fold n. do 3 run_step.
    read_old. fold n. do 3 run_step.
    read_old. fold n. do 3 run_step.
    read_old. fold n. run_step.
    unfold ret. rewrite !fmap_id_num.
    rewrite <- !app_assoc. done.
  - unfold ret at 1. cbv beta iota. cbn [fst snd].
    read_old. fold n. do 3 run_step.
    read_old. fold n. do 3 run_step.
    read_old. fold n. do 3 run_step.
    read_old. fold n. run_step.
    unfold ret. rewrite !fmap_id_num.
    rewrite <- !app_assoc. done.
Qed.
End Run.

(** * Time of day, month ends, and a zone with a fixed offset *)

Lemma TimeClip_inRange x : inRange x → TimeClip x = Some x.
Proof.
  unfold inRange, TimeClip. intros H.
  destruct (Z.ltb_spec maxTime (Z.abs x)); [lia|done].
Qed.

Lemma TimeWithinDay_range t : 0 ≤ TimeWithinDay t < msPerDay.
Proof. unfold TimeWithinDay. apply Z.mod_pos_bound. done. Qed.

Lemma MakeDate_Day t : MakeDate (Day t) (TimeWithinDay t) = t.
Proof. unfold MakeDate, Day, TimeWithinDay, msPerDay. Z.div_mod_to_equations. lia. Qed.

Lemma Day_MakeDate d tod : 0 ≤ tod < msPerDay → Day (MakeDate d tod) = d.
Proof. unfold MakeDate, Day, msPerDay. intros H. Z.div_mod_to_equations. lia. Qed.

Lemma TimeWithinDay_MakeDate d tod :
  0 ≤ tod < msPerDay → TimeWithinDay (MakeDate d tod) = tod.
Proof. unfold MakeDate, TimeWithinDay, msPerDay. intros H. Z.div_mod_to_equations. lia. Qed.

Lemma Day_add_days t k : Day (t + k * msPerDay) = Day t + k.
Proof. unfold Day, msPerDay. Z.div_mod_to_equations. lia. Qed.

Lemma TimeWithinDay_add_days t k : TimeWithinDay (t + k * msPerDay) = TimeWithinDay t.
Proof. unfold TimeWithinDay, msPerDay. Z.div_mod_to_equations. lia. Qed.

Lemma time_fields t :
  t = MakeDate (Day t)
        (MakeTime (HourFromTime t) (MinFromTime t) (SecFromTime t) (msFromTime t)).
Proof.
  unfold MakeDate, MakeTime, Day, HourFromTime, MinFromTime, SecFromTime, msFromTime,
    msPerDay, msPerHour, msPerMinute, msPerSecond.
  Z.div_mod_to_equations. lia.
Qed.

Lemma daysInMonth_range y m : 28 ≤ daysInMonth y m ≤ 31.
Proof.
  pose proof (leapOf_cases y). unfold daysInMonth.
  repeat case_match; lia.
Qed.

Lemma MakeDay_next_month y m d : 0 ≤ m ≤ 11 →
  MakeDay y (m + 1) d = MakeDay y m (daysInMonth y m + d).
Proof.
  intros Hm. destruct (Z.eq_dec m 11) as [->|Hne].
  - unfold MakeDay. change ((11 + 1) / 12) with 1. change ((11 + 1) mod 12) with 0.
    change (11 / 12) with 0. change (11 mod 12) with 11.
    rewrite DayFromYear_succ, DaysInYear_leapOf, !Z.add_0_r. unfold monthStart, daysInMonth. lia.
  - rewrite !MakeDay_month by lia.
    assert (Hm' : 0 ≤ m ≤ 10) by lia. clear Hm Hne.
    assert (m = 0 ∨ m = 1 ∨ m = 2 ∨ m = 3 ∨ m = 4 ∨ m = 5 ∨ m = 6 ∨ m = 7 ∨ m = 8
            ∨ m = 9 ∨ m = 10) as Hc by lia.
    destruct Hc as [->|[->|[->|[->|[->|[->|[->|[->|[->|[->| ->]]]]]]]]]]; simpl; lia.
Qed.

Lemma leapOf_spec y :
  leapOf y = if (y mod 4 =? 0) && (negb (y mod 100 =? 0) || (y mod 400 =? 0))
             then 1 else 0.
Proof.
  unfold leapOf, DaysInYear.
  destruct (y mod 4 =? 0), (y mod 100 =? 0), (y mod 400 =? 0); done.
Qed.

Lemma leapOf_MakeFullYear y : y ≠ 0 → leapOf (MakeFullYear y) = leapOf y.
Proof.
  intros Hy. unfold MakeFullYear.
  destruct (Z.leb_spec 0 y); destruct (Z.leb_spec y 99); simpl; try done.
  rewrite !leapOf_spec.
  replace ((1900 + y) mod 4) with (y mod 4) by (Z.div_mod_to_equations; lia).
  replace ((1900 + y) mod 100) with (y mod 100) by (Z.div_mod_to_equations; lia).
  destruct (Z.eqb_spec (y mod 4) 0); [|done].
  destruct (Z.eqb_spec (y mod 100) 0); [|done].
  exfalso. Z.div_mod_to_equations. lia.
Qed.

Lemma daysInMonth_MakeFullYear y m : y ≠ 0 →
  daysInMonth (MakeFullYear y) m = daysInMonth y m.
Proof. intros Hy. unfold daysInMonth. by rewrite leapOf_MakeFullYear. Qed.

Section FixedZone.
Context (c : Z).

Lemma setDateValue_fixed dt t :
    setDateValue (fixedZone c) (Some dt) t
    = TimeClip (t + (dt - DateFromTime (t + c)) * msPerDay).
  Proof.
    unfold setDateValue, LocalTime, UTC. simpl. f_equal.
    set (L := t + c).
    assert (MakeDay (YearFromTime L) (MonthFromTime L) dt
            = Day L + (dt - DateFromTime L)) as ->.
    { rewrite (civil_Day L). unfold MakeDay. lia. }
    pose proof (MakeDate_Day L). unfold MakeDate in *. lia.
  Qed.

Lemma setMonthValue_fixed m t :
    setMonthValue (fixedZone c) (Some m) t
    = TimeClip (MakeDate (MakeDay (YearFromTime (t + c)) m (DateFromTime (t + c)))
                         (TimeWithinDay (t + c)) - c).
  Proof. done. Qed.

Lemma setHoursValue_fixed hr t :
    setHoursValue (fixedZone c) (Some hr) t
    = TimeClip (t + (hr - HourFromTime (t + c)) * msPerHour).
  Proof.
    unfold setHoursValue, LocalTime, UTC. simpl. f_equal.
    set (L := t + c). pose proof (time_fields L) as H.
    unfold MakeDate, MakeTime in *. lia.
  Qed.

Lemma setMinutesValue_fixed mi t :
    setMinutesValue (fixedZone c) (Some mi) t
    = TimeClip (t + (mi - MinFromTime (t + c)) * msPerMinute).
  Proof.
    unfold setMinutesValue, LocalTime, UTC. simpl. f_equal.
    set (L := t + c). pose proof (time_fields L) as H.
    unfold MakeDate, MakeTime in *. lia.
  Qed.
End FixedZone.

(** * The line of months *)

Lemma firstDay_MakeDay y m d : MakeDay y m d = firstDay (12 * y + m) + d - 1.
Proof.
  unfold firstDay, MakeDay.
  replace (0 + (12 * y + m) / 12) with (y + m / 12) by (Z.div_mod_to_equations; lia).
  replace ((12 * y + m) mod 12) with (m mod 12) by (Z.div_mod_to_equations; lia).
  lia.
Qed.

Lemma monthLength_range k : 28 ≤ monthLength k ≤ 31.
Proof. apply daysInMonth_range. Qed.

Lemma firstDay_succ k : firstDay (k + 1) = firstDay k + monthLength k.
Proof.
  unfold firstDay, monthLength.
  assert (Hm : 0 ≤ k mod 12 ≤ 11) by (Z.div_mod_to_equations; lia).
  assert (MakeDay 0 (k + 1) 1 = MakeDay (k / 12) (k mod 12 + 1) 1) as ->.
  { unfold MakeDay.
    replace (0 + (k + 1) / 12) with (k / 12 + (k mod 12 + 1) / 12)
      by (Z.div_mod_to_equations; lia).
    replace ((k + 1) mod 12) with ((k mod 12 + 1) mod 12)
      by (Z.div_mod_to_equations; lia).
    done. }
  rewrite MakeDay_next_month, (MakeDay_carry 0 k), Z.add_0_l by done.
  rewrite (Z.add_comm _ 1), MakeDay_date. done.
Qed.

Lemma firstDay_lt_nat k (n : nat) : firstDay k < firstDay (k + 1 + Z.of_nat n).
Proof.
  induction n as [|n IH].
  - rewrite Z.add_0_r, firstDay_succ. pose proof (monthLength_range k). lia.
  - replace (k + 1 + Z.of_nat (S n)) with (k + 1 + Z.of_nat n + 1) by lia.
    rewrite firstDay_succ. pose proof (monthLength_range (k + 1 + Z.of_nat n)). lia.
Qed.

Lemma firstDay_lt k1 k2 : k1 < k2 → firstDay k1 < firstDay k2.
Proof.
  intros H. replace k2 with (k1 + 1 + Z.of_nat (Z.to_nat (k2 - k1 - 1))) by lia.
  apply firstDay_lt_nat.
Qed.

Lemma firstDay_le k1 k2 : k1 ≤ k2 → firstDay k1 ≤ firstDay k2.
Proof.
  intros H. destruct (Z.eq_dec k1 k2) as [->|]; [lia|].
  apply Z.lt_le_incl, firstDay_lt. lia.
Qed.

Lemma monthIndex_div t : monthIndex t / 12 = YearFromTime t.
Proof.
  unfold monthIndex. pose proof (MonthFromTime_range t).
  Z.div_mod_to_equations. lia.
Qed.

Lemma monthIndex_mod t : monthIndex t mod 12 = MonthFromTime t.
Proof.
  unfold monthIndex. pose proof (MonthFromTime_range t).
  Z.div_mod_to_equations. lia.
Qed.

Lemma Day_firstDay t : Day t = firstDay (monthIndex t) + DateFromTime t - 1.
Proof.
  rewrite (civil_Day t), firstDay_MakeDay. unfold monthIndex. f_equal. f_equal. f_equal. lia.
Qed.

Lemma DateFromTime_monthLength t : 1 ≤ DateFromTime t ≤ monthLength (monthIndex t).
Proof.
  unfold monthLength. rewrite monthIndex_div, monthIndex_mod. apply DateFromTime_range.
Qed.

Lemma monthIndex_unique t k :
  firstDay k ≤ Day t < firstDay (k + 1) →
  monthIndex t = k ∧ DateFromTime t = Day t - firstDay k + 1.
Proof.
  intros H. rewrite firstDay_succ in H.
  assert (Hm : 0 ≤ k mod 12 ≤ 11) by (Z.div_mod_to_equations; lia).
  destruct (civil_of_MakeDay (k / 12) (k mod 12) (Day t - firstDay k + 1) t)
    as (Hy & Hmo & Hd); [done| | |].
  - unfold monthLength in H. lia.
  - rewrite firstDay_MakeDay.
    replace (12 * (k / 12) + k mod 12) with k by (Z.div_mod_to_equations; lia). lia.
  - split; [|done]. unfold monthIndex. rewrite Hy, Hmo. Z.div_mod_to_equations; lia.
Qed.

Lemma monthIndex_mono t1 t2 : Day t1 ≤ Day t2 → monthIndex t1 ≤ monthIndex t2.
Proof.
  intros H. pose proof (Day_firstDay t1). pose proof (Day_firstDay t2).
  pose proof (DateFromTime_monthLength t1). pose proof (DateFromTime_monthLength t2).
  destruct (Z.le_gt_cases (monthIndex t1) (monthIndex t2)) as [|Hgt]; [done|].
  assert (firstDay (monthIndex t2 + 1) ≤ firstDay (monthIndex t1))
    by (apply firstDay_le; lia).
  rewrite firstDay_succ in *. lia.
Qed.

Lemma monthLengthSeen_le k : 28 ≤ monthLengthSeen k ≤ monthLength k.
Proof.
  unfold monthLengthSeen, monthLength, daysInMonth.
  pose proof (leapOf_cases (k / 12)). pose proof (leapOf_cases (MakeFullYear (k / 12))).
  destruct (Z.eq_dec (k / 12) 0) as [Hz|Hnz].
  - rewrite Hz. change (leapOf (MakeFullYear 0)) with 0. change (leapOf 0) with 1.
    repeat case_match; lia.
  - rewrite leapOf_MakeFullYear by done. repeat case_match; lia.
Qed.

Lemma monthLengthSeen_eq k : k / 12 ≠ 0 → monthLengthSeen k = monthLength k.
Proof. intros H. unfold monthLengthSeen, monthLength. by rewrite daysInMonth_MakeFullYear. Qed.

Lemma msPerDay_eq : msPerDay = 86400000. Proof. done. Qed.
Lemma maxTime_eq : maxTime = 8640000000000000. Proof. done. Qed.

Lemma Day_local d tod c :
  0 ≤ tod < msPerDay → Day (d * msPerDay + tod - c + c) = d.
Proof.
  intros H. replace (d * msPerDay + tod - c + c) with (MakeDate d tod)
    by (unfold MakeDate; lia).
  by apply Day_MakeDate.
Qed.

Lemma TimeWithinDay_local d tod c :
  0 ≤ tod < msPerDay → TimeWithinDay (d * msPerDay + tod - c + c) = tod.
Proof.
  intros H. replace (d * msPerDay + tod - c + c) with (MakeDate d tod)
    by (unfold MakeDate; lia).
  by apply TimeWithinDay_MakeDate.
Qed.

(** A date given by a day of month [k] and a time of day, read back. *)
Lemma local_fields k dd tod c :
  1 ≤ dd ≤ monthLength k → 0 ≤ tod < msPerDay →
  let r := (firstDay k + dd - 1) * msPerDay + tod - c in
  monthIndex (r + c) = k ∧ DateFromTime (r + c) = dd ∧
  TimeWithinDay (r + c) = tod ∧ Day (r + c) = firstDay k + dd - 1.
Proof.
  intros Hd Ht r. unfold r.
  pose proof (Day_local (firstDay k + dd - 1) tod c Ht) as HD.
  destruct (monthIndex_unique ((firstDay k + dd - 1) * msPerDay + tod - c + c) k)
    as [Hk Hdt].
  { rewrite HD, firstDay_succ. lia. }
  rewrite Hdt, HD. repeat split; [done|lia|by apply TimeWithinDay_local].
Qed.

Lemma MakeDay_date1 y m d : MakeDay y m d = MakeDay y m 1 + (d - 1).
Proof. unfold MakeDay. lia. Qed.

Lemma firstDay_years y m : 1900 ≤ y ≤ 1999 → 0 ≤ m ≤ 11 →
  - 30000 ≤ MakeDay y m 1 ≤ 12000.
Proof.
  intros Hy Hm. rewrite MakeDay_month by done.
  pose proof (DayFromYear_linear y). pose proof (leapOf_cases y).
  assert (0 ≤ monthStart m (leapOf y) ≤ 335).
  { month_split m Hm; simpl; lia. }
  lia.
Qed.

Section FixedOffset.
Context (c : Z) (Hc : - msPerDay ≤ c ≤ msPerDay).

Lemma LocalTime_fixed t : LocalTime (fixedZone c) t = t + c.
  Proof. done. Qed.

Lemma localField_fixed f t : localField (fixedZone c) f (Some t) = Some (f (t + c)).
  Proof. done. Qed.

Lemma ymdValue_fixed y m d :
    ymdValue (fixedZone c) (Some y) (Some m) (Some d)
    = TimeClip (MakeDay (MakeFullYear y) m d * msPerDay - c).
  Proof.
    unfold ymdValue, UTC, MakeDate. simpl. f_equal.
    change (MakeTime 0 0 0 0) with 0. lia.
  Qed.

Lemma addMonths_fixed t N :
    - maxTime + 31 * msPerDay ≤ t ≤ maxTime →
    - maxTime + msPerDay ≤ firstDay (monthIndex (t + c) + N) * msPerDay →
    firstDay (monthIndex (t + c) + N) * msPerDay + 32 * msPerDay ≤ maxTime →
    (addMonthsValue (fixedZone c) (Some t) (Some N)).1
    = Some (clampedLocal (t + c) N - c).
  Proof.
    intros Ht HF HF'. unfold clampedLocal.
    pose proof msPerDay_eq as Hms. pose proof maxTime_eq as Hmax.
    set (L := t + c) in *. set (k := monthIndex L) in *. set (D := DateFromTime L).
    set (tod := TimeWithinDay L).
    pose proof (TimeWithinDay_range L) as Htod. fold tod in Htod.
    pose proof (DateFromTime_monthLength L) as HD. fold D k in HD.
    pose proof (monthLength_range k) as Hlen.
    pose proof (Day_firstDay L) as HDay. fold D k in HDay.
    pose proof (MakeDate_Day L) as HL. fold tod in HL. unfold MakeDate in HL.
    unfold addMonthsValue. cbn [fst].
    change (Some t ≫= TimeClip) with (TimeClip t).
    rewrite TimeClip_inRange by (unfold inRange; lia).
    rewrite localField_fixed. fold L D.
    change (Some t ≫= setDateValue (fixedZone c) (Some 1))
      with (setDateValue (fixedZone c) (Some 1) t).
    rewrite setDateValue_fixed. fold L D.
    rewrite TimeClip_inRange by (unfold inRange; lia).
    (* the first of the month *)
    assert (Ht1 : t + (1 - D) * msPerDay = (firstDay k + 1 - 1) * msPerDay + tod - c)
      by lia.
    rewrite Ht1.
    destruct (local_fields k 1 tod c) as (Hk1 & Hd1 & Htod1 & HDay1); [lia|done|].
    rewrite localField_fixed.
    rewrite <- (monthIndex_mod (_ + c)), Hk1.
    change (Some (k mod 12) + Some N)%num with (Some (k mod 12 + N)).
    change (Some ?x ≫= setMonthValue (fixedZone c) ?m)
      with (setMonthValue (fixedZone c) m x).
    rewrite setMonthValue_fixed, Hd1, Htod1.
    rewrite <- (monthIndex_div (_ + c)), Hk1.
    assert (Hmd : MakeDay (k / 12) (k mod 12 + N) 1 = firstDay (k + N) + 1 - 1).
    { rewrite firstDay_MakeDay. f_equal. f_equal. f_equal.
      Z.div_mod_to_equations; lia. }
    unfold MakeDate. rewrite Hmd.
    rewrite TimeClip_inRange by (unfold inRange; lia).
    pose proof (monthLength_range (k + N)) as Hlen'.
    pose proof (monthLengthSeen_le (k + N)) as Hseen.
    destruct (local_fields (k + N) 1 tod c) as (Hk2 & Hd2 & Htod2 & HDay2); [lia|done|].
    rewrite !localField_fixed.
    rewrite <- (monthIndex_div (_ + c)), <- (monthIndex_mod (_ + c)), Hk2.
    change (Some ((k + N) mod 12) + Some 1)%num with (Some ((k + N) mod 12 + 1)).
    rewrite ymdValue_fixed.
    assert (Hm12 : 0 ≤ (k + N) mod 12 ≤ 11) by (Z.div_mod_to_equations; lia).
    rewrite MakeDay_next_month, Z.add_0_r by done.
    fold (monthLengthSeen (k + N)).
    set (yy := MakeFullYear ((k + N) / 12)).
    set (last := monthLengthSeen (k + N)) in *.
    (* the last day of the month the constructor sees *)
    assert (Hlast : MakeDay yy ((k + N) mod 12) last
                    = firstDay (12 * yy + (k + N) mod 12) + last - 1)
      by apply firstDay_MakeDay.
    assert (Hlen2 : monthLength (12 * yy + (k + N) mod 12) = last).
    { unfold monthLength, last, monthLengthSeen. fold yy. f_equal.
      all: Z.div_mod_to_equations; lia. }
    assert (Hrange : inRange (MakeDay yy ((k + N) mod 12) last * msPerDay - c)).
    { unfold inRange, yy, MakeFullYear.
      destruct (Z.leb_spec 0 ((k + N) / 12)); destruct (Z.leb_spec ((k + N) / 12) 99);
        simpl.
      - pose proof (firstDay_years (1900 + (k + N) / 12) ((k + N) mod 12)).
        rewrite (MakeDay_date1 _ _ last). lia.
      - rewrite firstDay_MakeDay.
        replace (12 * ((k + N) / 12) + (k + N) mod 12) with (k + N)
          by (Z.div_mod_to_equations; lia). lia.
      - rewrite firstDay_MakeDay.
        replace (12 * ((k + N) / 12) + (k + N) mod 12) with (k + N)
          by (Z.div_mod_to_equations; lia). lia.
      - lia. }
    rewrite TimeClip_inRange by done.
    rewrite localField_fixed.
    assert (Hdl : DateFromTime (MakeDay yy ((k + N) mod 12) last * msPerDay - c + c) = last).
    { rewrite Hlast.
      destruct (local_fields (12 * yy + (k + N) mod 12) last 0 c) as (_ & Hd3 & _);
        [lia|lia|].
      rewrite Z.add_0_r in Hd3. done. }
    rewrite Hdl.
    change (nmin (Some D) (Some last)) with (Some (Z.min D last)).
    change (Some ?x ≫= setDateValue (fixedZone c) ?m)
      with (setDateValue (fixedZone c) m x).
    rewrite setDateValue_fixed, Hd2.
    rewrite TimeClip_inRange by (unfold inRange; lia).
    f_equal. lia.
  Qed.
End FixedOffset.

Lemma Day_mono t1 t2 : t1 ≤ t2 → Day t1 ≤ Day t2.
Proof. intros H. unfold Day. apply Z.div_le_mono; [done|lia]. Qed.

Lemma firstDay_local L :
  firstDay (monthIndex L) * msPerDay ≤ L
  < firstDay (monthIndex L + 1) * msPerDay.
Proof.
  pose proof (Day_firstDay L) as HD. pose proof (DateFromTime_monthLength L) as Hd.
  pose proof (MakeDate_Day L) as HL. pose proof (TimeWithinDay_range L) as Ht.
  rewrite firstDay_succ. unfold MakeDate in HL. pose proof msPerDay_eq. nia.
Qed.

Section FixedPeel.
Context (c : Z).

Lemma afterDays_fixed a n :
  inRange a → inRange n → a ≤ n →
  afterDays (fixedZone c) (Some a) (Some n) = Some (n - (n - a) mod dayMs).
Proof.
  intros Ha Hn Hle. unfold afterDays, peelDays, inRange in *.
  change (Some a ≫= ?f) with (f a).
  change (localField (fixedZone c) DateFromTime (Some a) + nfloordiv (Some n - Some a) dayMs)%num
    with (Some (DateFromTime (a + c) + (n - a) / dayMs)).
  rewrite setDateValue_fixed.
  change dayMs with msPerDay. pose proof msPerDay_eq.
  assert (a + (DateFromTime (a + c) + (n - a) / msPerDay - DateFromTime (a + c)) * msPerDay
          = n - (n - a) mod msPerDay) as -> by (Z.div_mod_to_equations; lia).
  apply TimeClip_inRange. unfold inRange. Z.div_mod_to_equations; lia.
Qed.

Lemma afterHours_fixed a n :
  inRange a → inRange n → a ≤ n →
  afterHours (fixedZone c) (Some a) (Some n) = Some (n - (n - a) mod hourMs).
Proof.
  intros Ha Hn Hle. unfold afterHours, peelHours, inRange in *.
  change (Some a ≫= ?f) with (f a).
  change (localField (fixedZone c) HourFromTime (Some a) + nfloordiv (Some n - Some a) hourMs)%num
    with (Some (HourFromTime (a + c) + (n - a) / hourMs)).
  rewrite setHoursValue_fixed.
  change hourMs with msPerHour. assert (msPerHour = 3600000) by reflexivity.
  assert (a + (HourFromTime (a + c) + (n - a) / msPerHour - HourFromTime (a + c)) * msPerHour
          = n - (n - a) mod msPerHour) as -> by (Z.div_mod_to_equations; lia).
  apply TimeClip_inRange. unfold inRange. Z.div_mod_to_equations; lia.
Qed.

Lemma afterMinutes_fixed a n :
  inRange a → inRange n → a ≤ n →
  afterMinutes (fixedZone c) (Some a) (Some n) = Some (n - (n - a) mod minuteMs).
Proof.
  intros Ha Hn Hle. unfold afterMinutes, peelMinutes, inRange in *.
  change (Some a ≫= ?f) with (f a).
  change (localField (fixedZone c) MinFromTime (Some a) + nfloordiv (Some n - Some a) minuteMs)%num
    with (Some (MinFromTime (a + c) + (n - a) / minuteMs)).
  rewrite setMinutesValue_fixed.
  change minuteMs with msPerMinute. assert (msPerMinute = 60000) by reflexivity.
  assert (a + (MinFromTime (a + c) + (n - a) / msPerMinute - MinFromTime (a + c)) * msPerMinute
          = n - (n - a) mod msPerMinute) as -> by (Z.div_mod_to_equations; lia).
  apply TimeClip_inRange. unfold inRange. Z.div_mod_to_equations; lia.
Qed.

(** The four small units, peeled from the gap [n - a] one after the other. *)
Lemma peel_fixed a n :
  inRange a → inRange n → a ≤ n →
  let r := n - a in
  let a2 := afterDays (fixedZone c) (Some a) (Some n) in
  let a3 := afterHours (fixedZone c) a2 (Some n) in
  let a4 := afterMinutes (fixedZone c) a3 (Some n) in
  peelDays (Some a) (Some n) = Some (r / dayMs) ∧
  peelHours a2 (Some n) = Some (r mod dayMs / hourMs) ∧
  peelMinutes a3 (Some n) = Some (r mod hourMs / minuteMs) ∧
  nfloordiv (Some n - a4)%num 1000 = Some (r mod minuteMs / 1000) ∧
  a4 = Some (n - r mod minuteMs).
Proof.
  intros Ha Hn Hle r a2 a3 a4.
  assert (H2 : a2 = Some (n - r mod dayMs)) by (by apply afterDays_fixed).
  assert (H3 : a3 = Some (n - r mod hourMs)).
  { unfold a3. rewrite H2, afterHours_fixed; try done; unfold inRange, r in *;
      change dayMs with 86400000; change hourMs with 3600000.
    - f_equal. Z.div_mod_to_equations; lia.
    - Z.div_mod_to_equations; lia.
    - Z.div_mod_to_equations; lia. }
  assert (H4 : a4 = Some (n - r mod minuteMs)).
  { unfold a4. rewrite H3, afterMinutes_fixed; try done; unfold inRange, r in *;
      change minuteMs with 60000; change hourMs with 3600000.
    - f_equal. Z.div_mod_to_equations; lia.
    - Z.div_mod_to_equations; lia.
    - Z.div_mod_to_equations; lia. }
  rewrite H4, H3, H2. unfold peelDays, peelHours, peelMinutes.
  unfold nfloordiv, nsub. cbn [mbind option_bind].
  repeat split; f_equal; unfold r; f_equal; lia.
Qed.
End FixedPeel.

Lemma monthLength_seen_gap k : monthLength k ≤ monthLengthSeen k + 1.
Proof.
  unfold monthLengthSeen, monthLength, daysInMonth.
  pose proof (leapOf_cases (k / 12)). pose proof (leapOf_cases (MakeFullYear (k / 12))).
  repeat case_match; lia.
Qed.

Lemma clampedLocal_bounds L N :
  firstDay (monthIndex L + N) * msPerDay ≤ clampedLocal L N
  < firstDay (monthIndex L + N + 1) * msPerDay.
Proof.
  unfold clampedLocal. rewrite firstDay_succ.
  pose proof (monthLengthSeen_le (monthIndex L + N)).
  pose proof (DateFromTime_monthLength L). pose proof (TimeWithinDay_range L).
  pose proof msPerDay_eq. nia.
Qed.

Lemma clampedLocal_0 L : clampedLocal L 0 ≤ L.
Proof.
  unfold clampedLocal. rewrite Z.add_0_r.
  pose proof (Day_firstDay L). pose proof (MakeDate_Day L) as HL. unfold MakeDate in HL.
  pose proof msPerDay_eq. nia.
Qed.

Lemma gap_no_decrement c s n T :
  monthIndex (s + c) + T = monthIndex (n + c) →
  clampedLocal (s + c) T - c ≤ n →
  n - (clampedLocal (s + c) T - c) < monthLength (monthIndex (s + c) + T) * msPerDay
  ∧ n - (clampedLocal (s + c) T - c) < 31 * msPerDay.
Proof.
  intros Hkn Hle.
  pose proof (firstDay_local (n + c)) as HFn.
  rewrite firstDay_succ in HFn.
  pose proof (monthLength_range (monthIndex (n + c))) as Hlen.
  pose proof (clampedLocal_bounds (s + c) T) as HbT. rewrite Hkn in *.
  generalize dependent (clampedLocal (s + c) T). intros a Ha1 Ha2.
  generalize dependent (monthLength (monthIndex (n + c))). intros len.
  generalize dependent (firstDay (monthIndex (n + c))). intros F.
  pose proof msPerDay_eq as Hms. revert Hms. generalize msPerDay. intros ms Hms.
  intros. subst ms. lia.
Qed.

Lemma gap_decrement c s n T : 
  1 ≤ T →
  monthIndex (s + c) + T = monthIndex (n + c) →
  n < clampedLocal (s + c) T - c →
  n - (clampedLocal (s + c) (T - 1) - c) < 32 * msPerDay ∧
  (1 ≤ YearFromTime (s + c) →
   n - (clampedLocal (s + c) (T - 1) - c) < 31 * msPerDay ∧
   (DateFromTime (s + c) ≤ monthLength (monthIndex (s + c) + (T - 1)) →
    n - (clampedLocal (s + c) (T - 1) - c) 
    < monthLength (monthIndex (s + c) + (T - 1)) * msPerDay)).
Proof.
  unfold clampedLocal. intros HT Hkn Hgt.
  rewrite Hkn in Hgt.
  replace (monthIndex (s + c) + (T - 1)) with (monthIndex (n + c) - 1) by lia.
  pose proof (DateFromTime_monthLength (s + c)) as HD.
  pose proof (TimeWithinDay_range (s + c)) as Htod.
  pose proof (monthLengthSeen_le (monthIndex (n + c))) as Hseen.
  pose proof (monthLength_range (monthIndex (n + c))) as Hlen.
  pose proof (firstDay_succ (monthIndex (n + c) - 1)) as Hprev.
  replace (monthIndex (n + c) - 1 + 1) with (monthIndex (n + c)) in Hprev by lia.
  pose proof (monthLength_range (monthIndex (n + c) - 1)) as Hlenp.
  pose proof (monthLengthSeen_le (monthIndex (n + c) - 1)) as Hseenp.
  pose proof (monthLength_seen_gap (monthIndex (n + c) - 1)) as Hgap.
  assert (Heq : 1 ≤ YearFromTime (s + c) →
                monthLengthSeen (monthIndex (n + c) - 1)
                = monthLength (monthIndex (n + c) - 1)).
  { intros Hy. apply monthLengthSeen_eq.
    pose proof (monthIndex_div (s + c)). Z.div_mod_to_equations. lia. }
  clear Hkn.
  revert Hgt Heq HD Htod.
  generalize (DateFromTime (s + c)) (TimeWithinDay (s + c)) (YearFromTime (s + c)).
  intros D tod Y.
  revert Hprev Hlenp Hseenp Hgap Hseen Hlen.
  generalize (monthLengthSeen (monthIndex (n + c) - 1))
    (monthLength (monthIndex (n + c) - 1)) (firstDay (monthIndex (n + c) - 1))
    (monthLengthSeen (monthIndex (n + c))) (monthLength (monthIndex (n + c)))
    (firstDay (monthIndex (n + c))).
  intros seenp lenp Fp seen len F.
  pose proof msPerDay_eq as Hms. revert Hms. generalize msPerDay. intros ms Hms.
  intros. subst ms. lia.
Qed.

Section MonthAnchor.
Context (c : Z) (Hc : - msPerDay ≤ c ≤ msPerDay).
Context (s n : Z) (Hs : wellInside s) (Hn : wellInside n) (Hlt : s < n).

Lemma totalMonthsValue_fixed :
  totalMonthsValue (fixedZone c) (Some s) (Some n)
  = Some (monthIndex (n + c) - monthIndex (s + c)).
Proof.
  unfold totalMonthsValue. rewrite !localField_fixed.
  unfold nadd, nsub, nmul. cbn [mbind option_bind]. f_equal. unfold monthIndex. lia.
Qed.

Lemma totalMonths_nonneg : 0 ≤ monthIndex (n + c) - monthIndex (s + c).
Proof.
  assert (monthIndex (s + c) ≤ monthIndex (n + c)); [|lia].
  apply monthIndex_mono, Day_mono. lia.
Qed.

Lemma monthAnchor_fixed :
  let T := monthIndex (n + c) - monthIndex (s + c) in
  let A := fun N => clampedLocal (s + c) N - c in
  ∃ adj,
    adjustedMonthsValue (fixedZone c) (Some s) (Some n) = Some adj ∧
    monthAnchorValue (fixedZone c) (Some s) (Some n) = Some (A adj) ∧
    0 ≤ adj ∧ s - 31 * msPerDay ≤ A adj ≤ n ∧
    ((adj = T ∧ A T ≤ n ∧ decrements (fixedZone c) (Some s) (Some n) = false) ∨
     (adj = T - 1 ∧ n < A T ∧ decrements (fixedZone c) (Some s) (Some n) = true)).
Proof.
  intros T A. pose proof totalMonths_nonneg as HT. fold T in HT.
  pose proof msPerDay_eq as Hms. pose proof maxTime_eq as Hmax.
  unfold wellInside in *.
  set (ks := monthIndex (s + c)) in *. set (kn := monthIndex (n + c)) in *.
  pose proof (firstDay_local (n + c)) as HFn. fold kn in HFn.
  pose proof (firstDay_local (s + c)) as HFs. fold ks in HFs.
  rewrite firstDay_succ in HFn, HFs.
  pose proof (monthLength_range kn). pose proof (monthLength_range ks).
  assert (Hkn : ks + T = kn) by (unfold T; lia).
  assert (HAT : (addMonthsValue (fixedZone c) (Some s) (Some T)).1 = Some (A T)).
  { apply addMonths_fixed; fold ks; rewrite ?Hkn; try lia. }
  pose proof (clampedLocal_bounds (s + c) T) as HbT. fold ks in HbT. rewrite Hkn in HbT.
  assert (Hdec : decrements (fixedZone c) (Some s) (Some n) = (n <? A T)).
  { unfold decrements. rewrite totalMonthsValue_fixed. fold kn ks T. by rewrite HAT. }
  unfold monthAnchorValue, adjustedMonthsValue. rewrite Hdec, totalMonthsValue_fixed.
  fold kn ks T.
  destruct (Z.ltb_spec n (A T)) as [Hgt|Hle].
  - (* the anchor overshoots: one month back *)
    assert (1 ≤ T).
    { destruct (Z.eq_dec T 0) as [HT0|]; [|lia].
      pose proof (clampedLocal_0 (s + c)). unfold A in Hgt. rewrite HT0 in Hgt. lia. }
    pose proof (firstDay_succ (kn - 1)) as Hprev.
    replace (kn - 1 + 1) with kn in Hprev by lia.
    pose proof (monthLength_range (kn - 1)).
    pose proof (clampedLocal_bounds (s + c) (T - 1)) as Hb1. fold ks in Hb1.
    replace (ks + (T - 1)) with (kn - 1) in Hb1 by lia.
    replace (kn - 1 + 1) with kn in Hb1 by lia.
    assert (firstDay ks ≤ firstDay (kn - 1)) by (apply firstDay_le; lia).
    exists (T - 1). change (Some T - Some 1)%num with (Some (T - 1)).
    rewrite addMonths_fixed; fold ks; replace (ks + (T - 1)) with (kn - 1) by lia;
      try lia.
    fold (A (T - 1)).
    split; [done|]. split; [done|]. split; [lia|].
    split; [unfold A, msPerDay, maxTime in *; lia|].
    right. done.
  - exists T. rewrite HAT.
    assert (firstDay ks ≤ firstDay kn) by (apply firstDay_le; lia).
    split; [done|]. split; [done|]. split; [lia|].
    split; [unfold A, msPerDay, maxTime in *; lia|].
    left. done.
Qed.

Lemma monthAnchor_gap adj :
  let T := monthIndex (n + c) - monthIndex (s + c) in
  let A := fun N => clampedLocal (s + c) N - c in
  0 ≤ adj →
  (adj = T ∧ A T ≤ n) ∨ (adj = T - 1 ∧ n < A T) →
  n - A adj < 32 * msPerDay ∧
  (1 ≤ YearFromTime (s + c) →
   n - A adj < 31 * msPerDay ∧
   (DateFromTime (s + c) ≤ monthLength (monthIndex (s + c) + adj) →
    n - A adj < monthLength (monthIndex (s + c) + adj) * msPerDay)).
Proof.
  intros T A Hadj Hcase.
  assert (Hkn : monthIndex (s + c) + T = monthIndex (n + c)) by (unfold T; lia).
  destruct Hcase as [[-> Hle]|[-> Hgt]].
  - destruct (gap_no_decrement c s n T Hkn Hle) as [H1 H2].
    unfold A. pose proof msPerDay_eq. split; [lia|]. intros _. split; [done|].
    intros _. done.
  - apply gap_decrement; [lia|done|done].
Qed.

Lemma breakdownValue_fixed :
  let A := fun N => clampedLocal (s + c) N - c in
  ∃ adj, 
    let r := n - A adj in
    adjustedMonthsValue (fixedZone c) (Some s) (Some n) = Some adj ∧
    monthAnchorValue (fixedZone c) (Some s) (Some n) = Some (A adj) ∧
    0 ≤ adj ∧ 0 ≤ r ∧
    breakdownValue (fixedZone c) (Some s) (Some n) =
    {| years := Some (adj / 12); months := Some (adj mod 12);
       days := Some (r / dayMs); hours := Some (r mod dayMs / hourMs);
       minutes := Some (r mod hourMs / minuteMs);
       seconds := Some (r mod minuteMs / 1000) |}.
Proof.
  intros A. destruct monthAnchor_fixed as (adj & Hadj & Hanchor & Hpos & Hr & _).
  fold A in Hanchor, Hr. exists adj. intros r.
  split; [done|]. split; [done|]. split; [done|]. split; [unfold r, A in *; lia|].
  unfold breakdownValue.
  assert (nleb (Some n) (Some s) = false) as ->.
  { unfold nleb. destruct (Z.leb_spec n s); [lia|done]. }
  change (Some s ≫= TimeClip) with (TimeClip s).
  assert (Hin : inRange s) by (unfold wellInside, inRange, msPerDay, maxTime in *; lia).
  rewrite (TimeClip_inRange s Hin), Hadj, Hanchor.
  destruct (peel_fixed c (A adj) n) as (Hd & Hh & Hm & Hsec & _).
  { unfold wellInside, inRange, A, msPerDay, maxTime in *. lia. }
  { unfold wellInside, inRange, msPerDay, maxTime in *. lia. }
  { unfold A in *. lia. }
  unfold A in *. rewrite Hd, Hh, Hm, Hsec. fold r.
  unfold nfloordiv, nrem. cbn [mbind option_bind].
  rewrite Z.rem_mod_nonneg by lia. done.
Qed.
End MonthAnchor.

(** * Zones with a regular calendar

    In such a zone [addMonthsClamped] can be followed through the calendar
    day its date shows, whatever the offsets do to the time of day. *)

Lemma setDateValue_local tz dt t :
  setDateValue tz (Some dt) t
  = TimeClip (UTC tz ((firstDay (monthIndex (LocalTime tz t)) + dt - 1) * msPerDay
                      + TimeWithinDay (LocalTime tz t))).
Proof.
  unfold setDateValue. cbn [mbind option_bind]. unfold MakeDate.
  rewrite firstDay_MakeDay.
  replace (12 * YearFromTime (LocalTime tz t) + MonthFromTime (LocalTime tz t))
    with (monthIndex (LocalTime tz t)) by (unfold monthIndex; lia).
  done.
Qed.

Lemma setMonthValue_local tz m t :
  setMonthValue tz (Some m) t
  = TimeClip (UTC tz ((firstDay (12 * YearFromTime (LocalTime tz t) + m)
                       + DateFromTime (LocalTime tz t) - 1) * msPerDay
                      + TimeWithinDay (LocalTime tz t))).
Proof.
  unfold setMonthValue. cbn [mbind option_bind]. unfold MakeDate.
  by rewrite firstDay_MakeDay.
Qed.

Lemma ymdValue_local tz y m d :
  ymdValue tz (Some y) (Some m) (Some d)
  = TimeClip (UTC tz (MakeDay (MakeFullYear y) m d * msPerDay)).
Proof.
  unfold ymdValue, MakeDate. cbn [mbind option_bind].
  change (MakeTime 0 0 0 0) with 0. by rewrite Z.add_0_r.
Qed.

Lemma Day_in_month k dd tod :
  0 ≤ tod < msPerDay → Day ((firstDay k + dd - 1) * msPerDay + tod) = firstDay k + dd - 1.
Proof. intros H. by apply (Day_MakeDate (firstDay k + dd - 1) tod). Qed.

Section Regular.
Context (tz : TimeZone) (Hreg : regularZone tz).

(** The instant picked for a local reading on day [dd] of month [k] shows
    that day. *)
Lemma local_of_UTC k dd tod :
  1 ≤ dd ≤ monthLength k → 0 ≤ tod < msPerDay →
  let L := LocalTime tz (UTC tz ((firstDay k + dd - 1) * msPerDay + tod)) in
  Day L = firstDay k + dd - 1 ∧ monthIndex L = k ∧ DateFromTime L = dd.
Proof.
  intros Hd Ht L. destruct Hreg as (HA & _).
  assert (HD : Day L = firstDay k + dd - 1).
  { unfold L. rewrite HA. by apply Day_in_month. }
  destruct (monthIndex_unique L k) as [Hk Hdt].
  { rewrite HD, firstDay_succ. lia. }
  split; [done|]. split; [done|]. rewrite Hdt, HD. lia.
Qed.

Lemma addMonths_regular t N :
  let L := LocalTime tz t in
  let K := monthIndex L + N in
  - maxTime + 33 * msPerDay ≤ t ≤ maxTime - 2 * msPerDay →
  - maxTime + msPerDay ≤ firstDay K * msPerDay →
  firstDay K * msPerDay + 34 * msPerDay ≤ maxTime →
  ∃ u, (addMonthsValue tz (Some t) (Some N)).1 = Some u ∧
       Day (LocalTime tz u)
       = firstDay K + Z.min (DateFromTime L) (monthLengthSeen K) - 1.
Proof.
  intros L K Ht HF HF'.
  pose proof Hreg as (HA & HB & HC & HU).
  pose proof msPerDay_eq as Hms. pose proof maxTime_eq as Hmax.
  set (k := monthIndex L) in *. set (D := DateFromTime L).
  set (tod := TimeWithinDay L).
  pose proof (TimeWithinDay_range L) as Htod. fold tod in Htod.
  pose proof (DateFromTime_monthLength L) as HD. fold D k in HD.
  pose proof (monthLength_range k) as Hlen.
  pose proof (Day_firstDay L) as HDay. fold D k in HDay.
  pose proof (MakeDate_Day L) as HL. fold tod in HL. unfold MakeDate in HL.
  assert (HLt : t - msPerDay ≤ L ≤ t + msPerDay).
  { unfold L, LocalTime. specialize (HC t). lia. }
  unfold addMonthsValue. cbn [fst].
  change (Some t ≫= TimeClip) with (TimeClip t).
  rewrite TimeClip_inRange by (unfold inRange; lia).
  change (localField tz DateFromTime (Some t)) with (Some D).
  change (Some t ≫= setDateValue tz (Some 1)) with (setDateValue tz (Some 1) t).
  rewrite setDateValue_local. fold L k tod.
  (* the first of the month *)
  set (l1 := (firstDay k + 1 - 1) * msPerDay + tod).
  pose proof (HU l1) as Hu1.
  destruct (local_of_UTC k 1 tod) as (HD1 & Hk1 & Hd1); [lia|done|]. fold l1 in HD1, Hk1, Hd1.
  rewrite TimeClip_inRange by (unfold inRange, l1 in *; lia).
  set (u1 := UTC tz l1) in *. set (L1 := LocalTime tz u1) in *.
  change (localField tz MonthFromTime (Some u1)) with (Some (MonthFromTime L1)).
  change (Some (MonthFromTime L1) + Some N)%num with (Some (MonthFromTime L1 + N)).
  change (Some u1 ≫= setMonthValue tz ?m) with (setMonthValue tz m u1).
  rewrite setMonthValue_local. fold L1. rewrite Hd1.
  assert (12 * YearFromTime L1 + (MonthFromTime L1 + N) = K) as ->.
  { unfold K. rewrite <- Hk1. unfold monthIndex. lia. }
  pose proof (TimeWithinDay_range L1) as Htod1. set (tod1 := TimeWithinDay L1) in *.
  set (l2 := (firstDay K + 1 - 1) * msPerDay + tod1).
  pose proof (HU l2) as Hu2.
  pose proof (monthLength_range K) as Hlen'.
  pose proof (monthLengthSeen_le K) as Hseen.
  destruct (local_of_UTC K 1 tod1) as (HD2 & Hk2 & Hd2); [lia|done|]. fold l2 in HD2, Hk2, Hd2.
  rewrite TimeClip_inRange by (unfold inRange, l2 in *; lia).
  set (u2 := UTC tz l2) in *. set (L2 := LocalTime tz u2) in *.
  change (localField tz YearFromTime (Some u2)) with (Some (YearFromTime L2)).
  change (localField tz MonthFromTime (Some u2)) with (Some (MonthFromTime L2)).
  rewrite <- (monthIndex_div L2), <- (monthIndex_mod L2), Hk2.
  change (Some (K mod 12) + Some 1)%num with (Some (K mod 12 + 1)).
  rewrite ymdValue_local.
  assert (Hm12 : 0 ≤ K mod 12 ≤ 11) by (Z.div_mod_to_equations; lia).
  rewrite MakeDay_next_month, Z.add_0_r by done.
  fold (monthLengthSeen K).
  set (yy := MakeFullYear (K / 12)).
  set (last := monthLengthSeen K) in *.
  (* the last day of the month the constructor sees *)
  assert (Hlast : MakeDay yy (K mod 12) last
                  = firstDay (12 * yy + K mod 12) + last - 1)
    by apply firstDay_MakeDay.
  assert (Hlen2 : monthLength (12 * yy + K mod 12) = last).
  { unfold monthLength, last, monthLengthSeen. fold yy. f_equal.
    all: Z.div_mod_to_equations; lia. }
  pose proof (HU (MakeDay yy (K mod 12) last * msPerDay)) as Hu3.
  assert (Hrange : inRange (UTC tz (MakeDay yy (K mod 12) last * msPerDay))).
  { revert Hu3. generalize (UTC tz (MakeDay yy (K mod 12) last * msPerDay)). intros u3 Hu3.
    unfold inRange, yy, MakeFullYear in *.
    destruct (Z.leb_spec 0 (K / 12)); destruct (Z.leb_spec (K / 12) 99);
      simpl in *.
    - pose proof (firstDay_years (1900 + K / 12) (K mod 12)).
      rewrite (MakeDay_date1 _ _ last) in *. lia.
    - rewrite firstDay_MakeDay in *.
      replace (12 * (K / 12) + K mod 12) with K in *
        by (Z.div_mod_to_equations; lia). lia.
    - rewrite firstDay_MakeDay in *.
      replace (12 * (K / 12) + K mod 12) with K in *
        by (Z.div_mod_to_equations; lia). lia.
    - lia. }
  rewrite TimeClip_inRange by done.
  assert (Hdl : DateFromTime (LocalTime tz (UTC tz (MakeDay yy (K mod 12) last * msPerDay)))
                = last).
  { rewrite Hlast.
    destruct (local_of_UTC (12 * yy + K mod 12) last 0) as (_ & _ & Hd3); [lia|lia|].
    rewrite Z.add_0_r in Hd3. done. }
  change (localField tz DateFromTime (Some ?x)) with (Some (DateFromTime (LocalTime tz x))).
  rewrite Hdl.
  change (nmin (Some D) (Some last)) with (Some (Z.min D last)).
  change (Some u2 ≫= setDateValue tz ?m) with (setDateValue tz m u2).
  rewrite setDateValue_local. fold L2. rewrite Hk2.
  pose proof (TimeWithinDay_range L2) as Htod2. set (tod2 := TimeWithinDay L2) in *.
  set (l3 := (firstDay K + Z.min D last - 1) * msPerDay + tod2).
  pose proof (HU l3) as Hu3'.
  destruct (local_of_UTC K (Z.min D last) tod2) as (HD3 & _); [lia|done|]. fold l3 in HD3.
  rewrite TimeClip_inRange by (unfold inRange, l3 in *; lia).
  eexists. split; [reflexivity|]. exact HD3.
Qed.
End Regular.

Lemma fixedZone_regular c : - msPerDay ≤ c ≤ msPerDay → regularZone (fixedZone c).
Proof.
  intros Hc. unfold regularZone, LocalTime, UTC. cbn [tzOffset tzUTC fixedZone].
  split; [intros l; f_equal; lia|].
  split; [intros u1 u2 H; apply Day_mono; lia|].
  split; intros; lia.
Qed.

Section RegularAnchor.
Context (tz : TimeZone) (Hreg : regularZone tz).
Context (s n : Z) (Hs : wellInside s) (Hn : wellInside n).

Lemma totalMonthsValue_local :
  totalMonthsValue tz (Some s) (Some n)
  = Some (monthIndex (LocalTime tz n) - monthIndex (LocalTime tz s)).
Proof.
  unfold totalMonthsValue, localField. cbn [fmap option_fmap option_map].
  unfold nadd, nsub, nmul. cbn [mbind option_bind]. f_equal. unfold monthIndex. lia.
Qed.

Lemma monthAnchor_regular :
  let T := monthIndex (LocalTime tz n) - monthIndex (LocalTime tz s) in
  ∃ first adj anchor,
    (addMonthsValue tz (Some s) (Some T)).1 = Some first ∧
    adjustedMonthsValue tz (Some s) (Some n) = Some adj ∧
    (n < first → adj = T - 1) ∧ (first ≤ n → adj = T) ∧
    monthAnchorValue tz (Some s) (Some n) = Some anchor ∧ anchor ≤ n.
Proof.
  intros T. pose proof Hreg as (HA & HB & HC & HU).
  pose proof msPerDay_eq as Hms. pose proof maxTime_eq as Hmax.
  unfold wellInside in *.
  set (Ls := LocalTime tz s) in *. set (Ln := LocalTime tz n) in *.
  set (ks := monthIndex Ls) in *. set (kn := monthIndex Ln) in *.
  assert (HLn : n - msPerDay ≤ Ln ≤ n + msPerDay).
  { unfold Ln, LocalTime. specialize (HC n). lia. }
  pose proof (firstDay_local Ln) as HFn. fold kn in HFn.
  rewrite firstDay_succ in HFn.
  pose proof (monthLength_range kn) as Hlenn.
  assert (Hkn : ks + T = kn) by (unfold T; lia).
  destruct (addMonths_regular tz Hreg s T) as (first & Hfirst & Hfd);
    fold Ls ks; rewrite ?Hkn; try lia.
  fold Ls ks in Hfd. rewrite Hkn in Hfd.
  assert (Hdec : decrements tz (Some s) (Some n) = (n <? first)).
  { unfold decrements. rewrite totalMonthsValue_local. fold Ls Ln kn ks T. by rewrite Hfirst. }
  unfold monthAnchorValue, adjustedMonthsValue. rewrite Hdec, totalMonthsValue_local.
  fold Ls Ln kn ks T.
  exists first.
  destruct (Z.ltb_spec n first) as [Hgt|Hle].
  - (* the anchor overshoots: one month back, to a day before the month of now *)
    pose proof (firstDay_succ (kn - 1)) as Hprev.
    replace (kn - 1 + 1) with kn in Hprev by lia.
    pose proof (monthLength_range (kn - 1)) as Hlenp.
    pose proof (monthLengthSeen_le (kn - 1)) as Hseenp.
    change (Some T - Some 1)%num with (Some (T - 1)).
    destruct (addMonths_regular tz Hreg s (T - 1)) as (a & Ha & Had);
      fold Ls ks; replace (ks + (T - 1)) with (kn - 1) by lia; try lia.
    fold Ls ks in Had. replace (ks + (T - 1)) with (kn - 1) in Had by lia.
    exists (T - 1), a.
    split; [done|]. split; [done|]. split; [done|]. split; [lia|]. split; [done|].
    destruct (Z.le_gt_cases a n) as [|Hlt]; [done|]. exfalso.
    assert (HDn : firstDay kn ≤ Day Ln).
    { pose proof (Day_firstDay Ln) as HD. pose proof (DateFromTime_monthLength Ln).
      fold kn in HD. lia. }
    specialize (HB n a ltac:(lia)). fold Ln in HB. lia.
  - exists T, first.
    split; [done|]. split; [done|]. split; [lia|]. split; [done|]. split; [done|]. done.
Qed.
End RegularAnchor.

(** [toronto] has a regular calendar. *)

Lemma Day_spec t : Day t * 86400000 ≤ t < Day t * 86400000 + 86400000.
Proof. unfold Day, msPerDay. Z.div_mod_to_equations. lia. Qed.

Lemma Day_unique t d : d * 86400000 ≤ t < d * 86400000 + 86400000 → Day t = d.
Proof. unfold Day, msPerDay. intros H. Z.div_mod_to_equations. lia. Qed.

Lemma nthSunday_march y :
  DayFromYear y + 66 ≤ nthSunday y 2 2 ≤ DayFromYear y + 73.
Proof.
  unfold nthSunday. rewrite MakeDay_month by lia. cbn [monthStart].
  pose proof (leapOf_cases y).
  generalize (DayFromYear y + (59 + leapOf y) + 1 - 1 + 4). intros x.
  Z.div_mod_to_equations. lia.
Qed.

Lemma nthSunday_november y :
  DayFromYear y + 304 ≤ nthSunday y 10 1 ≤ DayFromYear y + 311.
Proof.
  unfold nthSunday. rewrite MakeDay_month by lia. cbn [monthStart].
  pose proof (leapOf_cases y).
  generalize (DayFromYear y + (304 + leapOf y) + 1 - 1 + 4). intros x.
  Z.div_mod_to_equations. lia.
Qed.

Lemma torontoOffset_cases u :
  let v := u - 18000000 in
  let y := YearFromTime v in
  (torontoOffset u = -14400000 ∧
   nthSunday y 2 2 * 86400000 + 7200000 ≤ v < nthSunday y 10 1 * 86400000 + 3600000)
  ∨ (torontoOffset u = -18000000 ∧
     (v < nthSunday y 2 2 * 86400000 + 7200000
      ∨ nthSunday y 10 1 * 86400000 + 3600000 ≤ v)).
Proof.
  intros v y. unfold torontoOffset, torontoDstStart, torontoDstEnd, MakeDate.
  change EST with (-18000000). change EDT with (-14400000).
  change msPerDay with 86400000. change (2 * msPerHour) with 7200000.
  replace (u + -18000000) with v by (unfold v; lia). fold y.
  destruct (Z.leb_spec (nthSunday y 2 2 * 86400000 + 7200000 - -18000000) u);
    destruct (Z.ltb_spec u (nthSunday y 10 1 * 86400000 + 7200000 - -14400000));
    cbn [andb]; [left|right|right|right]; unfold v; (split; [done|lia]).
Qed.

Lemma year_order v1 v2 :
  v1 ≤ v2 → YearFromTime v1 < YearFromTime v2 →
  DayFromYear (YearFromTime v1) + 365 ≤ Day v2.
Proof.
  intros Hle Hlt. pose proof (YearFromTime_spec v2) as H2.
  assert (DayFromYear (YearFromTime v1 + 1) ≤ DayFromYear (YearFromTime v2))
    by (apply DayFromYear_le; lia).
  rewrite DayFromYear_succ, DaysInYear_leapOf in *.
  pose proof (leapOf_cases (YearFromTime v1)). lia.
Qed.

Lemma year_mono v1 v2 : v1 ≤ v2 → YearFromTime v1 ≤ YearFromTime v2.
Proof.
  intros Hle. pose proof (YearFromTime_spec v1) as H1.
  pose proof (YearFromTime_spec v2) as H2. pose proof (Day_mono v1 v2 Hle).
  destruct (Z.le_gt_cases (YearFromTime v1) (YearFromTime v2)) as [|Hgt]; [done|].
  assert (DayFromYear (YearFromTime v2 + 1) ≤ DayFromYear (YearFromTime v1))
    by (apply DayFromYear_le; lia).
  lia.
Qed.

Lemma toronto_regular : regularZone toronto.
Proof.
  unfold regularZone, LocalTime, UTC. cbn [tzOffset tzUTC toronto].
  change EST with (-18000000). change EDT with (-14400000).
  change msPerDay with 86400000.
  split; [|split; [|split]].
  - (* the instant picked for a local reading shows the day of the reading *)
    intros l.
    destruct (torontoOffset_cases (l - -14400000)) as [[E1 _]|[E1 H1]].
    { rewrite E1. cbn [Z.eqb Pos.eqb]. rewrite E1. f_equal. lia. }
    rewrite E1. change (-18000000 =? -14400000) with false. cbv iota.
    destruct (torontoOffset_cases (l - -18000000)) as [[E2 H2]|[E2 _]];
      rewrite E2; [|f_equal; lia].
    replace (l - -18000000 - 18000000) with l in H2 by lia.
    replace (l - -14400000 - 18000000) with (l - 3600000) in H1 by lia.
    pose proof (nthSunday_march (YearFromTime l)) as HS.
    pose proof (nthSunday_november (YearFromTime l)) as HE.
    destruct (Z.eq_dec (YearFromTime (l - 3600000)) (YearFromTime l)) as [Hy|Hy].
    + rewrite Hy in H1.
      transitivity (nthSunday (YearFromTime l) 2 2); [|symmetry]; apply Day_unique; lia.
    + exfalso.
      pose proof (year_mono (l - 3600000) l ltac:(lia)).
      pose proof (year_order (l - 3600000) l ltac:(lia) ltac:(lia)) as Ho.
      pose proof (YearFromTime_spec (l - 3600000)) as Hp.
      pose proof (YearFromTime_spec l) as Hl.
      assert (DayFromYear (YearFromTime (l - 3600000) + 1) ≤ DayFromYear (YearFromTime l))
        by (apply DayFromYear_le; lia).
      pose proof (Day_spec (l - 3600000)). pose proof (Day_spec l). lia.
  - (* the local day never goes back *)
    intros u1 u2 Hle.
    destruct (torontoOffset_cases u1) as [[E1 H1]|[E1 _]]; rewrite E1.
    2:{ apply Day_mono. destruct (torontoOffset_cases u2) as [[E2 _]|[E2 _]]; rewrite E2; lia. }
    destruct (torontoOffset_cases u2) as [[E2 _]|[E2 H2]]; rewrite E2;
      [apply Day_mono; lia|].
    set (v1 := u1 - 18000000) in *. set (v2 := u2 - 18000000) in *.
    replace (u1 + -14400000) with (v1 + 3600000) by (unfold v1; lia).
    replace (u2 + -18000000) with v2 by (unfold v2; lia).
    assert (Hv : v1 ≤ v2) by (unfold v1, v2; lia).
    pose proof (nthSunday_march (YearFromTime v1)) as HS.
    pose proof (nthSunday_november (YearFromTime v1)) as HE.
    destruct (Z.eq_dec (YearFromTime v1) (YearFromTime v2)) as [Hy|Hy].
    + rewrite <- Hy in H2.
      pose proof (Day_spec (v1 + 3600000)). pose proof (Day_spec v2). lia.
    + pose proof (year_mono v1 v2 Hv).
      pose proof (year_order v1 v2 Hv ltac:(lia)).
      pose proof (Day_spec (v1 + 3600000)). pose proof (Day_spec v2). lia.
  - intros u. destruct (torontoOffset_cases u) as [[E _]|[E _]]; rewrite E; lia.
  - intros l. destruct (Z.eqb_spec (torontoOffset (l - -14400000)) (-14400000)); lia.
Qed.

(** [asuncion] has a regular calendar. *)

Lemma nthSunday_late_march y :
  DayFromYear y + 80 ≤ nthSunday y 2 4 ≤ DayFromYear y + 87.
Proof.
  unfold nthSunday. rewrite MakeDay_month by lia. cbn [monthStart].
  pose proof (leapOf_cases y).
  generalize (DayFromYear y + (59 + leapOf y) + 1 - 1 + 4). intros x.
  Z.div_mod_to_equations. lia.
Qed.

Lemma nthSunday_october y :
  DayFromYear y + 273 ≤ nthSunday y 9 1 ≤ DayFromYear y + 280.
Proof.
  unfold nthSunday. rewrite MakeDay_month by lia. cbn [monthStart].
  pose proof (leapOf_cases y).
  generalize (DayFromYear y + (273 + leapOf y) + 1 - 1 + 4). intros x.
  Z.div_mod_to_equations. lia.
Qed.

Lemma asuncionOffset_cases u :
  let v := u - 14400000 in
  let y := YearFromTime v in
  (asuncionOffset u = -14400000 ∧
   nthSunday y 2 4 * 86400000 - 3600000 ≤ v < nthSunday y 9 1 * 86400000)
  ∨ (asuncionOffset u = -10800000 ∧
     (v < nthSunday y 2 4 * 86400000 - 3600000
      ∨ nthSunday y 9 1 * 86400000 ≤ v)).
Proof.
  intros v y. unfold asuncionOffset, asuncionDstStart, asuncionDstEnd, MakeDate.
  change PYT with (-14400000). change PYST with (-10800000).
  change msPerDay with 86400000.
  replace (u + -14400000) with v by (unfold v; lia). fold y.
  destruct (Z.leb_spec (nthSunday y 2 4 * 86400000 + 0 - -10800000) u);
    destruct (Z.ltb_spec u (nthSunday y 9 1 * 86400000 + 0 - -14400000));
    cbn [andb]; [left|right|right|right]; unfold v; (split; [done|lia]).
Qed.

Lemma asuncion_regular : regularZone asuncion.
Proof.
  unfold regularZone, LocalTime, UTC. cbn [tzOffset tzUTC asuncion].
  change PYT with (-14400000). change PYST with (-10800000).
  change msPerDay with 86400000.
  split; [|split; [|split]].
  - (* the instant picked for a local reading shows the day of the reading *)
    intros l.
    destruct (asuncionOffset_cases (l - -10800000)) as [[E1 H1]|[E1 _]].
    2:{ rewrite E1. cbn [Z.eqb Pos.eqb]. rewrite E1. f_equal. lia. }
    rewrite E1. change (-14400000 =? -10800000) with false. cbv iota.
    destruct (asuncionOffset_cases (l - -14400000)) as [[E2 _]|[E2 H2]];
      rewrite E2; [f_equal; lia|].
    replace (l - -14400000 - 14400000) with l in H2 by lia.
    replace (l - -10800000 - 14400000) with (l - 3600000) in H1 by lia.
    pose proof (nthSunday_late_march (YearFromTime l)) as HS.
    pose proof (nthSunday_october (YearFromTime l)) as HE.
    destruct (Z.eq_dec (YearFromTime (l - 3600000)) (YearFromTime l)) as [Hy|Hy].
    + rewrite Hy in H1.
      transitivity (nthSunday (YearFromTime l) 9 1); [|symmetry]; apply Day_unique; lia.
    + exfalso.
      pose proof (year_mono (l - 3600000) l ltac:(lia)).
      pose proof (year_order (l - 3600000) l ltac:(lia) ltac:(lia)) as Ho.
      pose proof (nthSunday_october (YearFromTime (l - 3600000))) as HE'.
      pose proof (Day_spec l). lia.
  - (* the local day never goes back *)
    intros u1 u2 Hle.
    destruct (asuncionOffset_cases u1) as [[E1 _]|[E1 H1]]; rewrite E1.
    { apply Day_mono. destruct (asuncionOffset_cases u2) as [[E2 _]|[E2 _]]; rewrite E2; lia. }
    destruct (asuncionOffset_cases u2) as [[E2 H2]|[E2 _]]; rewrite E2;
      [|apply Day_mono; lia].
    set (v1 := u1 - 14400000) in *. set (v2 := u2 - 14400000) in *.
    replace (u1 + -10800000) with (v1 + 3600000) by (unfold v1; lia).
    replace (u2 + -14400000) with v2 by (unfold v2; lia).
    assert (Hv : v1 ≤ v2) by (unfold v1, v2; lia).
    pose proof (nthSunday_late_march (YearFromTime v2)) as HS.
    pose proof (nthSunday_october (YearFromTime v2)) as HE.
    destruct (Z.eq_dec (YearFromTime v1) (YearFromTime v2)) as [Hy|Hy].
    + rewrite Hy in H1.
      pose proof (Day_spec (v1 + 3600000)). pose proof (Day_spec v2). lia.
    + pose proof (year_mono v1 v2 Hv).
      assert (DayFromYear (YearFromTime v1 + 1) ≤ DayFromYear (YearFromTime v2))
        by (apply DayFromYear_le; lia).
      pose proof (YearFromTime_spec v1). pose proof (Day_spec v1).
      apply Day_mono. lia.
  - intros u. destruct (asuncionOffset_cases u) as [[E _]|[E _]]; rewrite E; lia.
  - intros l. destruct (Z.eqb_spec (asuncionOffset (l - -10800000)) (-10800000)); lia.
Qed.

(** The zone that skips a day from 06:00 has no regular calendar: noon of
    December 31 2021 is read as noon of January 1. *)
Lemma dayAheadZone_irregular : ¬ regularZone dayAheadZone.
Proof.
  intros (HA & _).
  specialize (HA (MakeDate (MakeDay 2021 11 31) (12 * msPerHour))).
  vm_compute in HA. discriminate.
Qed.

(** * The claims *)

Lemma timeValue_Some_lt (l : loc) (h : Heap) x :
  timeValue l h = Some x → (l < length h)%nat.
Proof.
  unfold timeValue. intros H. destruct (h !! l) as [v|] eqn:E; [|done].
  by apply lookup_lt_Some in E.
Qed.

(** C2.  When [now] is at or before [startDate], [calculateBreakdown]
    returns the breakdown whose six fields are 0, and leaves the store as it
    is.  This holds in every time zone. *)
Theorem breakdown_zero_when_not_after tz (h : Heap) (startDate now : loc) s n :
  timeValue startDate h = Some s → timeValue now h = Some n → n ≤ s →
  calculateBreakdown tz startDate now h
  = ({| years := Some 0; months := Some 0; days := Some 0;
        hours := Some 0; minutes := Some 0; seconds := Some 0 |}, h).
Proof.
  intros Hs Hn Hle. unfold calculateBreakdown, getTime.
  do 2 run_step. rewrite !fmap_id_num, Hs, Hn. unfold nleb.
  destruct (Z.leb_spec n s); [done|lia].
Qed.

Lemma breakdown_zero_witness :
  calculateBreakdown utcZone 0%nat 1%nat (twoDates (Some 1000) (Some 1000))
  = ({| years := Some 0; months := Some 0; days := Some 0;
        hours := Some 0; minutes := Some 0; seconds := Some 0 |},
     twoDates (Some 1000) (Some 1000)).
Proof.
  apply (breakdown_zero_when_not_after utcZone _ 0%nat 1%nat 1000 1000);
    [reflexivity | reflexivity | lia].
Defined.

Lemma overrunPercentOf_run planned now h :
  overrunPercentOf planned now h =
  (if nleb planned (Some 0) then Some 0%Q
   else
     let overrunMs :=
       (timeValue now h - timeValue BREAK_GROUND_DATE h - planned)%num in
     if nleb overrunMs (Some 0) then Some 0%Q else npercent overrunMs planned,
   h).
Proof.
  unfold overrunPercentOf. destruct (nleb planned (Some 0)); [done|].
  unfold getTime. do 2 run_step. rewrite !fmap_id_num.
  by destruct (nleb _ (Some 0)).
Qed.

Lemma PLANNED_DURATION_MS_value : PLANNED_DURATION_MS = Some 288576000000.
Proof. reflexivity. Qed.

Lemma moduleHeap_value : moduleHeap = [Some 1320814800000; Some 1609390800000].
Proof. reflexivity. Qed.

Lemma Qmax_0_pos q : (0 < q)%Q → Qmax 0 q = q.
Proof.
  intros H. assert (E : Qcompare 0 q = Lt) by (by apply Qlt_alt).
  unfold Qmax, GenericMinMax.gmax. by rewrite E.
Qed.

Lemma Qmax_0_nonpos q : (q <= 0)%Q → Qmax 0 q = 0%Q.
Proof.
  intros H. unfold Qmax, GenericMinMax.gmax.
  destruct (Qcompare 0 q) eqn:E; try done.
  apply Qlt_alt in E. exfalso. apply (Qlt_irrefl 0). eapply Qlt_le_trans; eauto.
Qed.

Lemma inject_Z_pos x : 0 < x → (0 < inject_Z x)%Q.
Proof. intros H. unfold Qlt, inject_Z. simpl. lia. Qed.

Lemma inject_Z_nonpos x : x ≤ 0 → (inject_Z x <= 0)%Q.
Proof. intros H. unfold Qle, inject_Z. simpl. lia. Qed.

Lemma percent_sign (x p : Z) :
  0 < p →
  ((0 < x → (0 < inject_Z x / inject_Z p * 100)%Q) ∧
   (x ≤ 0 → (inject_Z x / inject_Z p * 100 <= 0)%Q)).
Proof.
  intros Hp. pose proof (inject_Z_pos p Hp) as Hp'.
  split; intros Hx.
  - apply Qmult_lt_0_compat; [|done].
    apply Qlt_shift_div_l; [done|]. rewrite Qmult_0_l. by apply inject_Z_pos.
  - assert (inject_Z x / inject_Z p <= 0)%Q.
    { apply Qle_shift_div_r; [done|]. rewrite Qmult_0_l. by apply inject_Z_nonpos. }
    apply Qle_trans with (0 * 100)%Q; [by apply Qmult_le_compat_r|done].
Qed.

(** C3.  [calculateOverrunPercent now] is
    [max 0 ((elapsed - planned) / planned * 100)], with [elapsed] the time
    from the break-ground date to [now] and [planned] the time from the
    break-ground date to the projected opening.  Its body returns 0 when
    [planned <= 0], 0 when [elapsed <= planned], and otherwise the positive
    percentage, which it does not round. *)
Theorem overrun_percent_formula (h : Heap) (now : loc) (n start : Z) :
  timeValue now h = Some n →
  timeValue BREAK_GROUND_DATE h = Some start →
  let elapsed := n - start in
  let percent := fun planned : Z =>
    (inject_Z (elapsed - planned) / inject_Z planned * 100)%Q in
  (* the program, with the planned duration its constants give *)
  (∃ planned, PLANNED_DURATION_MS = Some planned ∧
     planned = 1609390800000 - 1320814800000 ∧
     (calculateOverrunPercent now h).1 = Some (Qmax 0 (percent planned))) ∧
  (* its body, for any planned duration *)
  (∀ planned : Z,
     let out := (overrunPercentOf (Some planned) now h).1 in
     (planned ≤ 0 → out = Some 0%Q) ∧
     (elapsed ≤ planned → out = Some 0%Q) ∧
     (0 < planned → out = Some (Qmax 0 (percent planned))) ∧
     (0 < planned → planned < elapsed →
        out = Some (percent planned) ∧ (0 < percent planned)%Q)).
Proof.
  intros Hn Hs elapsed percent.
  assert (Hbody : ∀ planned : Z,
     let out := (overrunPercentOf (Some planned) now h).1 in
     (planned ≤ 0 → out = Some 0%Q) ∧
     (elapsed ≤ planned → out = Some 0%Q) ∧
     (0 < planned → out = Some (Qmax 0 (percent planned))) ∧
     (0 < planned → planned < elapsed →
        out = Some (percent planned) ∧ (0 < percent planned)%Q)).
  { intros planned out. unfold out. rewrite overrunPercentOf_run, Hn, Hs.
    cbn [fst]. unfold nleb, nsub. cbn [mbind option_bind]. fold elapsed.
    destruct (Z.leb_spec planned 0) as [Hp|Hp].
    { repeat split; try done; lia. }
    destruct (percent_sign (elapsed - planned) planned Hp) as [Hpos Hneg].
    destruct (Z.leb_spec (elapsed - planned) 0) as [Ho|Ho].
    - repeat split; try done; try lia.
      intros _. unfold percent. by rewrite Qmax_0_nonpos by (apply Hneg; lia).
    - unfold npercent. cbn [mbind option_bind]. fold (percent planned).
      repeat split; try done; try lia.
      + intros _. unfold percent. by rewrite Qmax_0_pos by (apply Hpos; lia).
      + apply Hpos. lia. }
  split; [|exact Hbody].
  exists 288576000000. split; [reflexivity|]. split; [reflexivity|].
  unfold calculateOverrunPercent. rewrite PLANNED_DURATION_MS_value.
  apply (Hbody 288576000000). lia.
Qed.

Lemma overrunPercentOf_frame planned (now : loc) (h e : Heap) :
  (now < length h)%nat → (BREAK_GROUND_DATE < length h)%nat →
  (overrunPercentOf planned now (h ++ e)).1 = (overrunPercentOf planned now h).1.
Proof.
  intros H1 H2. rewrite !overrunPercentOf_run. cbn [fst].
  by rewrite !timeValue_app_l.
Qed.

Lemma tick_run tz clock (h : Heap) :
  (2 ≤ length h)%nat →
  tick tz clock h =
  ({| breakGround :=
        breakdownValue tz (timeValue BREAK_GROUND_DATE h) (TimeClip clock);
      projectedOpen :=
        breakdownValue tz (timeValue PROJECTED_OPEN_DATE h) (TimeClip clock);
      overrunPercent :=
        (overrunPercentOf PLANNED_DURATION_MS (length h)
           (h ++ [TimeClip clock])).1 |},
   h ++ [TimeClip clock]
     ++ breakdownCells tz (timeValue BREAK_GROUND_DATE h) (TimeClip clock)
     ++ breakdownCells tz (timeValue PROJECTED_OPEN_DATE h) (TimeClip clock)).
Proof.
  intros Hlen. unfold tick, BREAK_GROUND_DATE, PROJECTED_OPEN_DATE.
  unfold bind at 1, newDate at 1. cbv beta iota.
  change (Some clock ≫= TimeClip) with (TimeClip clock).
  set (h1 := h ++ [TimeClip clock]).
  assert (Hl1 : length h1 = S (length h)) by (unfold h1; rewrite length_app; simpl; lia).
  assert (Hnow : ∀ e, timeValue (length h) (h1 ++ e) = TimeClip clock).
  { intros e. unfold h1. rewrite <- app_assoc. apply timeValue_new. }
  assert (Hold : ∀ (l : loc) e, (l < length h)%nat → timeValue l (h1 ++ e) = timeValue l h).
  { intros l e Hl. unfold h1. rewrite <- app_assoc. by apply timeValue_app_l. }
  pose proof (Hnow []) as Hnow0. pose proof (Hold 0%nat []) as Hold0.
  pose proof (Hold 1%nat []) as Hold1. rewrite app_nil_r in Hnow0, Hold0, Hold1.
  unfold bind at 1. rewrite calculateBreakdown_run by lia. cbv beta iota.
  rewrite Hnow0, Hold0 by lia.
  unfold bind at 1. rewrite calculateBreakdown_run by (rewrite length_app; lia).
  cbv beta iota. rewrite Hnow, Hold by lia.
  unfold bind at 1, calculateOverrunPercent. rewrite overrunPercentOf_run.
  cbv beta iota. unfold ret.
  rewrite overrunPercentOf_run. cbn [fst].
  change BREAK_GROUND_DATE with 0%nat.
  rewrite <- !app_assoc, !Hnow, !Hold, ?Hnow0, ?Hold0 by lia.
  unfold h1. by rewrite <- !app_assoc.
Qed.

Lemma breakdown_frame tz (h : Heap) (startDate now l : loc) :
  (startDate < length h)%nat → (now < length h)%nat → (l < length h)%nat →
  timeValue l (calculateBreakdown tz startDate now h).2 = timeValue l h.
Proof.
  intros Hs Hn Hl. rewrite calculateBreakdown_run by done. cbn [snd].
  by apply timeValue_app_l.
Qed.

Lemma tick_frame tz clock (h : Heap) (l : loc) :
  (2 ≤ length h)%nat → (l < length h)%nat →
  timeValue l (tick tz clock h).2 = timeValue l h ∧
  (length h ≤ length (tick tz clock h).2)%nat.
Proof.
  intros Hlen Hl. rewrite tick_run by done. cbn [snd].
  split; [by apply timeValue_app_l|]. rewrite length_app. lia.
Qed.

Lemma storeAfterTicks_frame tz clocks (h : Heap) (l : loc) :
  (2 ≤ length h)%nat → (l < length h)%nat →
  timeValue l (storeAfterTicks tz clocks h) = timeValue l h.
Proof.
  revert h. induction clocks as [|clock rest IH]; intros h Hlen Hl; [done|].
  cbn [storeAfterTicks].
  destruct (tick_frame tz clock h l Hlen Hl) as [Heq Hle].
  rewrite IH by lia. done.
Qed.

(** C10.  [calculateBreakdown] leaves both of its arguments unchanged, and
    [addMonthsClamped] its argument: the store after the call is the store
    before it followed by fresh objects.  The two constant dates are the same
    after any run of ticks. *)
Theorem arguments_not_mutated tz (h : Heap) (startDate now date : loc)
    (monthsToAdd : num) (clocks : list Z) :
  (startDate < length h)%nat → (now < length h)%nat → (date < length h)%nat →
  (2 ≤ length h)%nat →
  let afterBreakdown := (calculateBreakdown tz startDate now h).2 in
  let afterAddMonths := (addMonthsClamped tz date monthsToAdd h).2 in
  let afterTicks := storeAfterTicks tz clocks h in
  (* both arguments of [calculateBreakdown], and every other object *)
  timeValue startDate afterBreakdown = timeValue startDate h ∧
  timeValue now afterBreakdown = timeValue now h ∧
  (∃ fresh, afterBreakdown = h ++ fresh) ∧
  (* the argument of [addMonthsClamped] *)
  timeValue date afterAddMonths = timeValue date h ∧
  (∃ fresh, afterAddMonths = h ++ fresh) ∧
  (* the two constants, over any run of ticks *)
  timeValue BREAK_GROUND_DATE afterTicks = timeValue BREAK_GROUND_DATE h ∧
  timeValue PROJECTED_OPEN_DATE afterTicks = timeValue PROJECTED_OPEN_DATE h.
Proof.
  intros Hs Hn Hd Hlen afterBreakdown afterAddMonths afterTicks.
  split; [by apply breakdown_frame|]. split; [by apply breakdown_frame|].
  split.
  { unfold afterBreakdown. rewrite calculateBreakdown_run by done. by eexists. }
  unfold afterAddMonths. rewrite addMonthsClamped_run. cbn [snd].
  split; [by apply timeValue_app_l|]. split; [by eexists|].
  unfold afterTicks, BREAK_GROUND_DATE, PROJECTED_OPEN_DATE.
  split; apply storeAfterTicks_frame; lia.
Qed.

Lemma arguments_not_mutated_witness :
  let h := moduleHeap ++ [Some 1741509000000] in
  timeValue 0%nat (calculateBreakdown toronto 0%nat 2%nat h).2 = timeValue 0%nat h ∧
  timeValue 2%nat (calculateBreakdown toronto 0%nat 2%nat h).2 = timeValue 2%nat h.
Proof.
  intros h.
  pose proof (arguments_not_mutated toronto h 0%nat 2%nat 0%nat (Some 1)
                [1741509000000; 1741509001000]) as H.
  split; apply H; vm_compute; lia.
Defined.

(** C9.  Two calls of [calculateBreakdown] on the same two dates give the
    same breakdown, and two calls of [calculateOverrunPercent] on the same
    date the same percentage, also when the second call runs on the store the
    first one left: the results depend on the store only through the time
    values of the dates read, and the calls change no object that exists. *)
Theorem calculators_deterministic tz (h : Heap) (startDate now : loc) (clock : Z) :
  (startDate < length h)%nat → (now < length h)%nat → (2 ≤ length h)%nat →
  let first := calculateBreakdown tz startDate now h in
  let again := calculateBreakdown tz startDate now first.2 in
  let overrun := calculateOverrunPercent now h in
  (* a second call, on the store the first one left *)
  again.1 = first.1 ∧
  (calculateOverrunPercent now overrun.2).1 = overrun.1 ∧
  (calculateOverrunPercent now first.2).1 = overrun.1 ∧
  overrun.2 = h ∧
  (* the results depend on the store only through the time values of the
     dates the calculators are given *)
  (∀ h' : Heap,
     (startDate < length h')%nat → (now < length h')%nat →
     timeValue startDate h' = timeValue startDate h →
     timeValue now h' = timeValue now h →
     (calculateBreakdown tz startDate now h').1 = first.1) ∧
  (∀ h' : Heap,
     timeValue now h' = timeValue now h →
     timeValue BREAK_GROUND_DATE h' = timeValue BREAK_GROUND_DATE h →
     (calculateOverrunPercent now h').1 = overrun.1) ∧
  (* two ticks at one clock reading show the same state *)
  (tick tz clock (tick tz clock h).2).1 = (tick tz clock h).1.
Proof.
  intros Hs Hn Hlen first again overrun.
  assert (Hfirst : first.2 = h ++ breakdownCells tz (timeValue startDate h) (timeValue now h)).
  { unfold first. by rewrite calculateBreakdown_run. }
  split.
  { unfold again. rewrite Hfirst, calculateBreakdown_run by (rewrite length_app; lia).
    unfold first. rewrite calculateBreakdown_run by done. cbn [fst].
    by rewrite !timeValue_app_l. }
  assert (Ho : overrun.2 = h).
  { unfold overrun, calculateOverrunPercent. by rewrite overrunPercentOf_run. }
  split; [by rewrite Ho|]. split.
  { rewrite Hfirst. unfold overrun, calculateOverrunPercent.
    apply overrunPercentOf_frame; unfold BREAK_GROUND_DATE; lia. }
  split; [done|]. split.
  { intros h' Hs' Hn' Es En. unfold first.
    rewrite !calculateBreakdown_run by done. cbn [fst]. by rewrite Es, En. }
  split.
  { intros h' En Eb. unfold overrun, calculateOverrunPercent.
    rewrite !overrunPercentOf_run. cbn [fst]. by rewrite En, Eb. }
  rewrite (tick_run tz clock h) by done. cbn [fst snd].
  set (cells := [TimeClip clock] ++ _ ++ _).
  rewrite tick_run by (rewrite length_app; lia). cbn [fst].
  rewrite !timeValue_app_l by (unfold BREAK_GROUND_DATE, PROJECTED_OPEN_DATE; lia).
  f_equal.
  rewrite !overrunPercentOf_run. cbn [fst].
  rewrite !timeValue_new.
  rewrite !timeValue_app_l
    by (rewrite ?length_app; unfold BREAK_GROUND_DATE; simpl; lia).
  done.
Qed.

Lemma calculators_deterministic_witness :
  let h := moduleHeap ++ [Some 1741509000000] in
  (calculateBreakdown toronto 0%nat 2%nat (calculateBreakdown toronto 0%nat 2%nat h).2).1
  = (calculateBreakdown toronto 0%nat 2%nat h).1.
Proof.
  intros h.
  refine (proj1 (calculators_deterministic toronto h 0%nat 2%nat 0 _ _ _));
    vm_compute; lia.
Defined.

Lemma breakdownValue_not_after tz s n :
  n ≤ s → breakdownValue tz (Some s) (Some n) = zeroBreakdown.
Proof.
  intros H. unfold breakdownValue, nleb. destruct (Z.leb_spec n s); [done|lia].
Qed.

Lemma units_bounds r :
  0 ≤ r →
  0 ≤ r / dayMs ∧ 0 ≤ r mod dayMs / hourMs ≤ 23 ∧
  0 ≤ r mod hourMs / minuteMs ≤ 59 ∧ 0 ≤ r mod minuteMs / 1000 ≤ 59.
Proof.
  intros H. change dayMs with 86400000. change hourMs with 3600000.
  change minuteMs with 60000. Z.div_mod_to_equations. lia.
Qed.

Lemma years_months adj :
  0 ≤ adj →
  adj / 12 * 12 + adj mod 12 = adj ∧ 0 ≤ adj / 12 ∧ 0 ≤ adj mod 12 ≤ 11.
Proof. intros H. Z.div_mod_to_equations. lia. Qed.

Lemma days_below r k : 0 ≤ r → r < k * msPerDay → r / dayMs ≤ k - 1.
Proof.
  intros H1 H2. change dayMs with 86400000. change msPerDay with 86400000 in H2.
  Z.div_mod_to_equations. lia.
Qed.

Section FixedBreakdown.
Context (c : Z) (Hc : - msPerDay ≤ c ≤ msPerDay).
Context (s n : Z) (Hs : wellInside s) (Hn : wellInside n) (Hlt : s < n).

(** The breakdown, with what is known of the gap it is taken from. *)
Lemma breakdown_fixed_gap :
  ∃ adj r,
    0 ≤ adj ∧ 0 ≤ r ∧
    adjustedMonthsValue (fixedZone c) (Some s) (Some n) = Some adj ∧
    monthAnchorValue (fixedZone c) (Some s) (Some n) = Some (n - r) ∧
    n - r = clampedLocal (s + c) adj - c ∧
    breakdownValue (fixedZone c) (Some s) (Some n) =
    {| years := Some (adj / 12); months := Some (adj mod 12);
       days := Some (r / dayMs); hours := Some (r mod dayMs / hourMs);
       minutes := Some (r mod hourMs / minuteMs);
       seconds := Some (r mod minuteMs / 1000) |} ∧
    r < 32 * msPerDay ∧
    (1 ≤ YearFromTime (s + c) →
     r < 31 * msPerDay ∧
     (DateFromTime (s + c) ≤ monthLength (monthIndex (s + c) + adj) →
      r < monthLength (monthIndex (s + c) + adj) * msPerDay)).
Proof.
  destruct (monthAnchor_fixed c Hc s n Hs Hn Hlt) as (adj & Hadj & Hanchor & Hpos & Hr & Hcase).
  destruct (breakdownValue_fixed c Hc s n Hs Hn Hlt) as (adj' & Hadj' & _ & _ & Hr' & Hb).
  assert (adj' = adj) as -> by congruence.
  exists adj, (n - (clampedLocal (s + c) adj - c)).
  split; [done|]. split; [done|]. split; [done|].
  split. { rewrite Hanchor. f_equal. lia. }
  split; [lia|]. split; [done|].
  apply (monthAnchor_gap c s n adj Hpos).
  destruct Hcase as [(H1 & H2 & _)|(H1 & H2 & _)]; [left|right]; done.
Qed.
End FixedBreakdown.

(** C1, as amended.  In a time zone with a fixed offset, for [start] and
    [now] at least 64 days inside the range of time values and [start] in
    year 1 or later: years are at least 0, months are in [0,11], hours in
    [0,23], minutes and seconds in [0,59] and days in [0,30]; and days are at
    most the length of the anchor's month less one when the day of the month
    of [start] exists in that month. *)
Theorem breakdown_fields_bounded c (h : Heap) (startDate now : loc) s n :
  - msPerDay ≤ c ≤ msPerDay →
  timeValue startDate h = Some s → timeValue now h = Some n →
  wellInside s → wellInside n → 1 ≤ YearFromTime (s + c) →
  ∃ y mo d hh mi ss,
    (calculateBreakdown (fixedZone c) startDate now h).1 =
    {| years := Some y; months := Some mo; days := Some d;
       hours := Some hh; minutes := Some mi; seconds := Some ss |} ∧
    0 ≤ y ∧ 0 ≤ mo ≤ 11 ∧ 0 ≤ d ≤ 30 ∧
    (let anchorMonth := monthIndex (s + c) + (y * 12 + mo) in
     DateFromTime (s + c) ≤ monthLength anchorMonth →
     d ≤ monthLength anchorMonth - 1) ∧
    0 ≤ hh ≤ 23 ∧ 0 ≤ mi ≤ 59 ∧ 0 ≤ ss ≤ 59.
Proof.
  intros Hc Hsd Hnw Hs Hn Hy.
  rewrite calculateBreakdown_run by (eapply timeValue_Some_lt; eauto).
  cbn [fst]. rewrite Hsd, Hnw.
  destruct (Z.le_gt_cases n s) as [Hle|Hlt].
  { rewrite breakdownValue_not_after by done.
    exists 0, 0, 0, 0, 0, 0. split; [done|].
    pose proof (monthLength_range (monthIndex (s + c) + (0 * 12 + 0))). cbv zeta. lia. }
  destruct (breakdown_fixed_gap c Hc s n Hs Hn) as
    (adj & r & Hadj & Hr & _ & _ & _ & Hb & _ & Hgap); [lia|].
  destruct (Hgap Hy) as [H31 Hlen]. destruct (units_bounds r Hr) as (Hd & Hh & Hm & Hss).
  eexists _, _, _, _, _, _. split; [exact Hb|].
  destruct (years_months adj Hadj) as (Eadj & Hyears & Hmonths).
  split; [done|]. split; [done|].
  split. { split; [done|]. pose proof (days_below r 31 Hr H31). lia. }
  split. { cbv zeta. rewrite Eadj. intros HD. apply days_below; auto. }
  done.
Qed.

Lemma breakdown_fields_bounded_witness :
  ∃ y mo d hh mi ss,
    (calculateBreakdown (fixedZone 0) 0%nat 1%nat
       (twoDates (Some 1612051200000) (Some 1617062400000))).1 =
    {| years := Some y; months := Some mo; days := Some d;
       hours := Some hh; minutes := Some mi; seconds := Some ss |} ∧
    0 ≤ y ∧ 0 ≤ mo ≤ 11 ∧ 0 ≤ d ≤ 30 ∧
    (let anchorMonth := monthIndex (1612051200000 + 0) + (y * 12 + mo) in
     DateFromTime (1612051200000 + 0) ≤ monthLength anchorMonth →
     d ≤ monthLength anchorMonth - 1) ∧
    0 ≤ hh ≤ 23 ∧ 0 ≤ mi ≤ 59 ∧ 0 ≤ ss ≤ 59.
Proof.
  apply (breakdown_fields_bounded 0 _ 0%nat 1%nat 1612051200000 1617062400000);
    [ vm_compute; split; discriminate | reflexivity | reflexivity
    | vm_compute; split; discriminate | vm_compute; split; discriminate
    | vm_compute; discriminate ].
Defined.

(** C1 as stated fails: the days can exceed the length of the anchor's
    month, a daylight-saving change breaks the bound on the minutes, and at
    the end of the range of time values the small units are NaN. *)
Lemma breakdown_bounds_counterexample :
  (* UTC, from 2021-01-31 to 2021-03-30: the anchor is 2021-02-28, in a
     month of 28 days, and 30 days are counted from it *)
  (monthAnchorValue utcZone (parseISO 2021 1 31 0 0 0 0) (parseISO 2021 3 30 0 0 0 0)
     = parseISO 2021 2 28 0 0 0 0 ∧
   monthLength (monthIndex 1614470400000) = 28 ∧
   breakdownAt utcZone (parseISO 2021 1 31 0 0 0 0) (parseISO 2021 3 30 0 0 0 0)
     = breakdownOf (Some 0) (Some 1) (Some 30) (Some 0) (Some 0) (Some 0) ∧
   ¬ claimedBounds 28
       (breakdownAt utcZone (parseISO 2021 1 31 0 0 0 0) (parseISO 2021 3 30 0 0 0 0))) ∧
  (* Toronto, from the break-ground date to 2025-03-09 04:30 EDT, the day
     the clocks go forward: 90 minutes *)
  (breakdownAt toronto (parseISO 2011 11 9 0 0 0 (-300)) (parseISO 2025 3 9 4 30 0 (-240))
     = breakdownOf (Some 13) (Some 4) (Some 0) (Some 3) (Some 90) (Some 0) ∧
   ∀ len, ¬ claimedBounds len
       (breakdownAt toronto (parseISO 2011 11 9 0 0 0 (-300))
          (parseISO 2025 3 9 4 30 0 (-240)))) ∧
  (* UTC, from the earliest time value: the first of that month is out of
     range, and the small units are NaN *)
  (breakdownAt utcZone (Some (- maxTime)) (Some 0)
     = breakdownOf (Some 273790) (Some 9) NaN NaN NaN NaN ∧
   ∀ len, ¬ claimedBounds len (breakdownAt utcZone (Some (- maxTime)) (Some 0))).
Proof.
  assert (E1 : breakdownAt utcZone (parseISO 2021 1 31 0 0 0 0) (parseISO 2021 3 30 0 0 0 0)
     = breakdownOf (Some 0) (Some 1) (Some 30) (Some 0) (Some 0) (Some 0))
    by (vm_compute; reflexivity).
  assert (E2 : breakdownAt toronto (parseISO 2011 11 9 0 0 0 (-300))
                 (parseISO 2025 3 9 4 30 0 (-240))
     = breakdownOf (Some 13) (Some 4) (Some 0) (Some 3) (Some 90) (Some 0))
    by (vm_compute; reflexivity).
  assert (E3 : breakdownAt utcZone (Some (- maxTime)) (Some 0)
     = breakdownOf (Some 273790) (Some 9) NaN NaN NaN NaN)
    by (vm_compute; reflexivity).
  split; [|split].
  - split; [vm_compute; reflexivity|]. split; [vm_compute; reflexivity|].
    split; [exact E1|]. rewrite E1.
    intros (y & mo & d & hh & mi & ss & Heq & _ & _ & Hd & _).
    unfold breakdownOf in Heq. injection Heq as <- <- <- <- <- <-. lia.
  - split; [exact E2|]. intros len. rewrite E2.
    intros (y & mo & d & hh & mi & ss & Heq & _ & _ & _ & _ & Hm & _).
    unfold breakdownOf in Heq. injection Heq as <- <- <- <- <- <-. lia.
  - split; [exact E3|]. intros len. rewrite E3.
    intros (y & mo & d & hh & mi & ss & Heq & _).
    unfold breakdownOf in Heq. discriminate Heq.
Qed.


Lemma addMonthsAt_run tz t N :
  addMonthsAt tz t N = (addMonthsValue tz t (Some N)).1.
Proof.
  unfold addMonthsAt. rewrite addMonthsClamped_run. cbn [fst snd].
  apply (timeValue_new [t]).
Qed.




Lemma reconstruct_run tz (startDate : loc) b (h : Heap) :
  (reconstruct tz startDate b h).1 =
  (let a1 := (addMonthsValue tz (timeValue startDate h)
                (years b * Some 12 + months b)%num).1 in
   let a2 := a1 ≫= setDateValue tz (localField tz DateFromTime a1 + days b)%num in
   let a3 := a2 ≫= setHoursValue tz (localField tz HourFromTime a2 + hours b)%num in
   let a4 := a3 ≫= setMinutesValue tz (localField tz MinFromTime a3 + minutes b)%num in
   a4 + seconds b * Some 1000)%num.
Proof.
  unfold reconstruct. unfold bind at 1. rewrite addMonthsClamped_run.
  cbv beta iota zeta.
  unfold getTime, getDate, getHours, getMinutes, setDate, setHours, setMinutes.
  do 7 run_step. unfold ret. cbn [fst]. by rewrite fmap_id_num.
Qed.

(** Years and months give the month count back, unless the months are
    negative. *)
Lemma months_back a : 0 ≤ Z.rem a 12 → a / 12 * 12 + Z.rem a 12 = a.
Proof. intros H. Z.to_euclidean_division_equations. lia. Qed.

Lemma last_second x n : n - 1000 < x + (n - x) / 1000 * 1000 ≤ n.
Proof. Z.div_mod_to_equations. lia. Qed.

(** C5, as amended.  In every time zone, for [start < now]: the month count
    [adjusted] that the breakdown reports, as [floor (adjusted / 12)] years
    and [adjusted % 12] months, is [totalMonths - 1] when
    [addMonthsClamped start totalMonths] is after [now], and [totalMonths]
    otherwise.  When the zone has a regular calendar and both dates are at
    least 64 days inside the range of time values,
    [addMonthsClamped start totalMonths] is a valid date and the anchor
    [addMonthsClamped] gives for the count is at or before [now]. *)
Theorem decrement_only_on_overshoot tz (h : Heap) (startDate now : loc) s n :
  timeValue startDate h = Some s → timeValue now h = Some n →
  inRange s → s < n →
  let totalMonths :=
    (YearFromTime (LocalTime tz n) - YearFromTime (LocalTime tz s)) * 12
    + (MonthFromTime (LocalTime tz n) - MonthFromTime (LocalTime tz s)) in
  let b := (calculateBreakdown tz startDate now h).1 in
  let first := addMonthsClamped tz startDate (Some totalMonths) h in
  ∃ adjusted,
    years b = Some (adjusted / 12) ∧ months b = Some (Z.rem adjusted 12) ∧
    adjusted = (if ngtb (timeValue first.1 first.2) (Some n)
                then totalMonths - 1 else totalMonths) ∧
    (regularZone tz → wellInside s → wellInside n →
     ∃ firstAnchor anchor,
       timeValue first.1 first.2 = Some firstAnchor ∧
       (let final := addMonthsClamped tz startDate (Some adjusted) h in
        timeValue final.1 final.2 = Some anchor) ∧
       anchor ≤ n).
Proof.
  intros Hsd Hnw Hin Hlt totalMonths b first.
  assert (HT : totalMonths = monthIndex (LocalTime tz n) - monthIndex (LocalTime tz s))
    by (unfold totalMonths, monthIndex; lia).
  assert (Hfirst : timeValue first.1 first.2
                   = (addMonthsValue tz (Some s) (Some totalMonths)).1).
  { unfold first. rewrite addMonthsClamped_run. cbn [fst snd].
    by rewrite timeValue_new, Hsd. }
  assert (Hadj : adjustedMonthsValue tz (Some s) (Some n)
                 = Some (if ngtb (timeValue first.1 first.2) (Some n)
                         then totalMonths - 1 else totalMonths)).
  { unfold adjustedMonthsValue, decrements.
    rewrite totalMonthsValue_local, <- HT, <- Hfirst.
    by destruct (ngtb (timeValue first.1 first.2) (Some n)). }
  set (adjusted := if ngtb (timeValue first.1 first.2) (Some n)
                   then totalMonths - 1 else totalMonths) in *.
  assert (Hb : b = breakdownValue tz (Some s) (Some n)).
  { unfold b. rewrite calculateBreakdown_run by (eapply timeValue_Some_lt; eauto).
    cbn [fst]. by rewrite Hsd, Hnw. }
  assert (Hnle : nleb (Some n) (Some s) = false).
  { unfold nleb. destruct (Z.leb_spec n s); [lia|done]. }
  exists adjusted.
  split.
  { rewrite Hb. unfold breakdownValue. rewrite Hnle. cbn [years].
    change (Some s ≫= TimeClip) with (TimeClip s).
    by rewrite (TimeClip_inRange s Hin), Hadj. }
  split.
  { rewrite Hb. unfold breakdownValue. rewrite Hnle. cbn [months].
    change (Some s ≫= TimeClip) with (TimeClip s).
    by rewrite (TimeClip_inRange s Hin), Hadj. }
  split; [done|].
  intros Hreg Hs Hn.
  destruct (monthAnchor_regular tz Hreg s n Hs Hn)
    as (f & adj & a & Hf & Hadj' & _ & _ & Hanchor & Hle).
  assert (adj = adjusted) as -> by congruence.
  exists f, a. split; [by rewrite Hfirst, HT|]. split; [|done].
  cbv zeta. rewrite addMonthsClamped_run. cbn [fst snd].
  rewrite timeValue_new, Hsd. unfold monthAnchorValue in Hanchor.
  by rewrite Hadj in Hanchor.
Qed.

(** In Toronto, from the break-ground date to 2025-03-09 04:30 EDT, the
    morning the clocks went forward. *)
Lemma decrement_only_on_overshoot_witness :
  let h := twoDates (Some 1320814800000) (Some 1741509000000) in
  let b := (calculateBreakdown toronto 0%nat 1%nat h).1 in
  ∃ adjusted anchor,
    years b = Some (adjusted / 12) ∧ months b = Some (Z.rem adjusted 12) ∧
    (let final := addMonthsClamped toronto 0%nat (Some adjusted) h in
     timeValue final.1 final.2 = Some anchor) ∧
    anchor ≤ 1741509000000.
Proof.
  destruct (decrement_only_on_overshoot toronto
              (twoDates (Some 1320814800000) (Some 1741509000000))
              0%nat 1%nat 1320814800000 1741509000000)
    as (adj & H1 & H2 & _ & H3);
    [ reflexivity | reflexivity | vm_compute; split; discriminate | reflexivity | ].
  destruct (H3 toronto_regular) as (f & a & _ & H4 & H5);
    [ vm_compute; split; discriminate | vm_compute; split; discriminate | ].
  exists adj, a. split; [exact H1|]. split; [exact H2|]. split; [exact H4|exact H5].
Defined.

(** C5 as stated fails at the end of the range of time values, where the
    anchor is an invalid date; and the anchor can be after [now] in a zone
    whose calendar is not regular. *)
Lemma decrement_counterexample :
  (* UTC, from the earliest time value to the epoch: the anchor is an
     invalid date, which is not at or before [now] *)
  (let start := Some (- maxTime) in
   let now := Some 0 in
   let b := breakdownAt utcZone start now in
   nleb now start = false ∧
   (years b * Some 12 + months b)%num = Some 3285489 ∧
   addMonthsAt utcZone start 3285489 = NaN ∧
   monthAnchorValue utcZone start now = NaN ∧
   nleb (addMonthsAt utcZone start 3285489) now = false) ∧
  (* the zone that skips from 06:00 on December 31 2021 to 06:00 on January
     1 2022, from October 31 12:00 to an hour after the skip, when its
     clocks show January 1 07:00: three months on is January 31, after
     [now]; two months on is December 31 12:00, which never occurs and is
     read as January 1 12:00, after [now] as well *)
  (let start := parseISO 2021 10 31 12 0 0 0 in
   let now := parseISO 2021 12 31 7 0 0 0 in
   now = Some 1640934000000 ∧
   nleb now start = false ∧
   totalMonthsValue dayAheadZone start now = Some 3 ∧
   decrements dayAheadZone start now = true ∧
   adjustedMonthsValue dayAheadZone start now = Some 2 ∧
   addMonthsAt dayAheadZone start 2 = Some 1640952000000 ∧
   monthAnchorValue dayAheadZone start now = Some 1640952000000 ∧
   days (breakdownAt dayAheadZone start now) = Some (-1)).
Proof. split; vm_compute; done. Qed.

(** In a zone with a fixed offset, away from the ends of the range, the
    breakdown has numbers in all its fields and no negative one. *)
Lemma breakdown_fixed_numbers c (h : Heap) (startDate now : loc) s n :
  - msPerDay ≤ c ≤ msPerDay →
  timeValue startDate h = Some s → timeValue now h = Some n →
  wellInside s → wellInside n → s < n →
  let b := (calculateBreakdown (fixedZone c) startDate now h).1 in
  ∃ mo ss, months b = Some mo ∧ 0 ≤ mo ∧ seconds b = Some ss.
Proof.
  intros Hc Hsd Hnw Hs Hn Hlt b.
  destruct (breakdown_fixed_gap c Hc s n Hs Hn Hlt)
    as (adj & g & Hadj & Hg & _ & _ & _ & Hb & _).
  unfold b. rewrite calculateBreakdown_run by (eapply timeValue_Some_lt; eauto).
  cbn [fst]. rewrite Hsd, Hnw, Hb. cbn [months seconds].
  eexists _, _. split; [reflexivity|]. split; [|reflexivity].
  apply Z.mod_pos_bound. lia.
Qed.

(** C6, as amended.  In every time zone, for [start < now], when the
    breakdown has a number of seconds and a number of months that is not
    negative: [start] moved on by [years * 12 + months] clamped months, then
    by the days, hours and minutes through the setters the program uses, and
    by the seconds, is at most [now] and less than a second before it. *)
Theorem reconstruction_within_a_second tz (h : Heap) (startDate now : loc)
    s n mo ss :
  timeValue startDate h = Some s → timeValue now h = Some n → s < n →
  let r := calculateBreakdown tz startDate now h in
  months r.1 = Some mo → 0 ≤ mo → seconds r.1 = Some ss →
  ∃ u, (reconstruct tz startDate r.1 r.2).1 = Some u ∧ n - 1000 < u ≤ n.
Proof.
  intros Hsd Hnw Hlt r Hmo Hpos Hss.
  assert (Hl : (startDate < length h)%nat) by (eapply timeValue_Some_lt; eauto).
  assert (Hl' : (now < length h)%nat) by (eapply timeValue_Some_lt; eauto).
  unfold r in *. rewrite reconstruct_run.
  rewrite calculateBreakdown_run in * by done.
  cbn [fst snd] in *. rewrite timeValue_app_l by done. rewrite Hsd, Hnw in *.
  unfold breakdownValue in *.
  assert (nleb (Some n) (Some s) = false) as Hnle.
  { unfold nleb. destruct (Z.leb_spec n s); [lia|done]. }
  rewrite Hnle in *. cbn [years months days hours minutes seconds] in *.
  change (Some s ≫= TimeClip) with (TimeClip s) in *.
  destruct (TimeClip s) as [s'|] eqn:Hclip; [|discriminate Hmo].
  assert (s' = s) as ->.
  { unfold TimeClip in Hclip. by destruct (maxTime <? Z.abs s); simplify_eq. }
  destruct (adjustedMonthsValue tz (Some s) (Some n)) as [adj|] eqn:Hadj;
    [|discriminate Hmo].
  cbn [nrem nfloordiv mbind option_bind] in Hmo |- *.
  assert (Z.rem adj 12 = mo) as Hrem by congruence.
  assert ((Some (adj / 12) * Some 12 + Some (Z.rem adj 12))%num = Some adj) as ->.
  { unfold nadd, nmul. cbn [mbind option_bind]. f_equal. apply months_back. lia. }
  cbv zeta. unfold monthAnchorValue in *. rewrite Hadj in *.
  set (a1 := (addMonthsValue tz (Some s) (Some adj)).1) in *.
  fold (peelDays a1 (Some n)). fold (afterDays tz a1 (Some n)).
  set (a2 := afterDays tz a1 (Some n)) in *.
  fold (peelHours a2 (Some n)). fold (afterHours tz a2 (Some n)).
  set (a3 := afterHours tz a2 (Some n)) in *.
  fold (peelMinutes a3 (Some n)). fold (afterMinutes tz a3 (Some n)).
  set (a4 := afterMinutes tz a3 (Some n)) in *.
  destruct a4 as [x|]; [|discriminate Hss].
  cbn [nsub nadd nmul nfloordiv mbind option_bind].
  eexists. split; [reflexivity|]. apply last_second.
Qed.

(** In Toronto, from the break-ground date to 2025-03-09 04:30 EDT: the
    breakdown counts 3 hours and 90 minutes from a midnight that is three
    and a half hours back, and the setters retrace them to [now]. *)
Lemma reconstruction_witness :
  let start := parseISO 2011 11 9 0 0 0 (-300) in
  let now := parseISO 2025 3 9 4 30 0 (-240) in
  let r := calculateBreakdown toronto 0%nat 1%nat (twoDates start now) in
  minutes r.1 = Some 90 ∧
  ∃ u, (reconstruct toronto 0%nat r.1 r.2).1 = Some u ∧
       1741509000000 - 1000 < u ≤ 1741509000000.
Proof.
  split; [vm_compute; reflexivity|].
  apply (reconstruction_within_a_second toronto _ 0%nat 1%nat
           1320814800000 1741509000000 4 0);
    [ reflexivity | reflexivity | reflexivity
    | vm_compute; reflexivity | discriminate | vm_compute; reflexivity ].
Defined.

(** C6 as stated fails at the end of the range of time values, and where
    the month count is negative. *)
Lemma reconstruction_counterexample :
  (* UTC, from the earliest time value to the epoch: the small units are
     NaN and nothing is reconstructed *)
  (let start := Some (- maxTime) in
   let now := Some 0 in
   nleb now start = false ∧
   seconds (breakdownAt utcZone start now) = NaN ∧
   reconstructAt utcZone start now = NaN) ∧
  (* Asuncion, from 2017-10-15 00:30 to 00:45: the first of that October
     has no 00:30, the anchor for 0 months is an hour after [start] and
     after [now], and the count goes to -1, shown as -1 years and -1 months;
     13 months back and the small units on is a year before [now] *)
  (let start := parseISO 2017 10 15 0 30 0 (-180) in
   let now := parseISO 2017 10 15 0 45 0 (-180) in
   nleb now start = false ∧
   adjustedMonthsValue asuncion start now = Some (-1) ∧
   breakdownAt asuncion start now
   = breakdownOf (Some (-1)) (Some (-1)) (Some 29) (Some 23) (Some 15) (Some 0) ∧
   now = Some 1508039100000 ∧
   reconstructAt asuncion start now = Some 1476503100000).
Proof. split; vm_compute; done. Qed.

Lemma leapYearCase_run tz :
  (leapYearCase tz []).1 =
  breakdownValue tz (ymdValue tz (Some 2020) (Some 0) (Some 31))
                    (ymdValue tz (Some 2020) (Some 2) (Some 1)).
Proof.
  unfold leapYearCase, newDateYMD, bind. cbn [length app].
  by rewrite (calculateBreakdown_run tz 0%nat 1%nat) by (simpl; lia).
Qed.

(** C7.  From January 31 2020 00:00:00 to March 1 2020 00:00:00, local
    time, [calculateBreakdown] returns 0 years, 1 month, 1 day and no hours,
    minutes or seconds: in every zone with a fixed offset, and in Toronto. *)
Theorem leap_year_case c :
  - msPerDay ≤ c ≤ msPerDay →
  (leapYearCase (fixedZone c) []).1
  = breakdownOf (Some 0) (Some 1) (Some 1) (Some 0) (Some 0) (Some 0) ∧
  (leapYearCase toronto []).1
  = breakdownOf (Some 0) (Some 1) (Some 1) (Some 0) (Some 0) (Some 0).
Proof.
  intros Hc. split; [|vm_compute; reflexivity].
  rewrite leapYearCase_run, !ymdValue_fixed.
  change (MakeDay (MakeFullYear 2020) 0 31 * msPerDay) with 1580428800000.
  change (MakeDay (MakeFullYear 2020) 2 1 * msPerDay) with 1583020800000.
  assert (Hms : msPerDay = 86400000) by reflexivity.
  rewrite !TimeClip_inRange by (unfold inRange, maxTime; lia).
  set (s := 1580428800000 - c). set (n := 1583020800000 - c).
  assert (Hs : wellInside s) by (unfold wellInside, s, maxTime; lia).
  assert (Hn : wellInside n) by (unfold wellInside, n, maxTime; lia).
  assert (Hlt : s < n) by (unfold s, n; lia).
  assert (Es : s + c = 1580428800000) by (unfold s; lia).
  assert (En : n + c = 1583020800000) by (unfold n; lia).
  destruct (monthAnchor_fixed c Hc s n Hs Hn Hlt)
    as (adj & Hadj & _ & _ & _ & Hcase).
  destruct (breakdownValue_fixed c Hc s n Hs Hn Hlt)
    as (adj' & Hadj' & _ & _ & _ & Hb).
  assert (adj' = adj) as -> by congruence.
  rewrite Hb. clear Hb Hadj Hadj'.
  rewrite Es, En in Hcase. rewrite Es.
  change (monthIndex 1583020800000 - monthIndex 1580428800000) with 2 in Hcase.
  change (clampedLocal 1580428800000 2) with 1585612800000 in Hcase.
  destruct Hcase as [(_ & H2 & _)|(-> & _ & _)]; [unfold n in H2; lia|].
  change (clampedLocal 1580428800000 (2 - 1)) with 1582934400000.
  replace (n - (1582934400000 - c)) with 86400000 by (unfold n; lia).
  reflexivity.
Qed.

Lemma leap_year_case_witness :
  (leapYearCase (fixedZone 0) []).1
  = breakdownOf (Some 0) (Some 1) (Some 1) (Some 0) (Some 0) (Some 0).
Proof.
  refine (proj1 (leap_year_case 0 _)). vm_compute. split; discriminate.
Defined.

(** C8.  For some [start < now] the days, hours, minutes and seconds of the
    loop differ from the four floor divisions of the one gap between [now]
    and the month-adjusted anchor: as the quotients come, and also when they
    are reduced to a clock reading. *)
Theorem peel_order_matters :
  (* UTC, 25 hours: the floors of the one gap, as they come *)
  (∃ s n, s < n ∧
     loopUnits (breakdownAt utcZone (Some s) (Some n))
     ≠ independentFloors (Some n - monthAnchorValue utcZone (Some s) (Some n))%num) ∧
  (* Toronto, across the night the clocks go forward: the floors of the one
     gap, reduced to a clock reading *)
  (∃ s n, s < n ∧
     loopUnits (breakdownAt toronto (Some s) (Some n))
     ≠ independentUnits (Some n - monthAnchorValue toronto (Some s) (Some n))%num).
Proof.
  split.
  - exists 0, 90000000. split; [reflexivity|]. vm_compute. discriminate.
  - exists 1320814800000, 1741509000000. split; [reflexivity|].
    vm_compute. discriminate.
Qed.

Lemma overrun_percent_witness :
  ∃ planned, PLANNED_DURATION_MS = Some planned ∧
    planned = 1609390800000 - 1320814800000 ∧
    (calculateOverrunPercent 2%nat (moduleHeap ++ [Some 1741509000000])).1
    = Some (Qmax 0 (inject_Z (1741509000000 - 1320814800000 - planned)
                    / inject_Z planned * 100)%Q).
Proof.
  exact (proj1 (overrun_percent_formula (moduleHeap ++ [Some 1741509000000])
                  2%nat 1741509000000 1320814800000 eq_refl eq_refl)).
Defined.

(** * Further properties of the calculators *)

Lemma clampedLocal_lt L k1 k2 : k1 < k2 → clampedLocal L k1 < clampedLocal L k2.
Proof.
  intros H. pose proof (clampedLocal_bounds L k1) as H1.
  pose proof (clampedLocal_bounds L k2) as H2.
  assert (firstDay (monthIndex L + k1 + 1) ≤ firstDay (monthIndex L + k2))
    by (apply firstDay_le; lia).
  pose proof msPerDay_eq. nia.
Qed.

Lemma clampedLocal_fields c L N :
  monthIndex (clampedLocal L N - c + c) = monthIndex L + N ∧
  DateFromTime (clampedLocal L N - c + c)
  = Z.min (DateFromTime L) (monthLengthSeen (monthIndex L + N)) ∧
  TimeWithinDay (clampedLocal L N - c + c) = TimeWithinDay L.
Proof.
  pose proof (monthLengthSeen_le (monthIndex L + N)) as Hseen.
  pose proof (DateFromTime_monthLength L) as HD.
  pose proof (TimeWithinDay_range L) as Ht.
  assert (Hdd : 1 ≤ Z.min (DateFromTime L) (monthLengthSeen (monthIndex L + N))
                ≤ monthLength (monthIndex L + N)) by lia.
  destruct (local_fields _ _ _ c Hdd Ht) as (Hk & Hd & Htod & _).
  unfold clampedLocal. done.
Qed.

Section Maximal.
Context (c : Z) (Hc : - msPerDay ≤ c ≤ msPerDay).
Context (s n : Z) (Hs : wellInside s) (Hn : wellInside n) (Hlt : s < n).

(** The month count is the largest one whose anchor does not pass [now]. *)
Lemma adjusted_maximal :
  ∃ adj,
    adjustedMonthsValue (fixedZone c) (Some s) (Some n) = Some adj ∧
    0 ≤ adj ≤ monthIndex (n + c) - monthIndex (s + c) ∧
    clampedLocal (s + c) adj - c ≤ n < clampedLocal (s + c) (adj + 1) - c.
Proof.
  destruct (monthAnchor_fixed c Hc s n Hs Hn Hlt)
    as (adj & Hadj & _ & Hpos & Hr & Hcase).
  exists adj. split; [done|].
  pose proof (totalMonths_nonneg c s n Hlt) as HT.
  destruct Hcase as [(-> & H2 & _)|(-> & H2 & _)].
  - split; [lia|]. split; [done|].
    pose proof (clampedLocal_bounds (s + c)
                  (monthIndex (n + c) - monthIndex (s + c) + 1)) as Hb.
    replace (monthIndex (s + c) + (monthIndex (n + c) - monthIndex (s + c) + 1))
      with (monthIndex (n + c) + 1) in Hb by lia.
    pose proof (firstDay_local (n + c)). lia.
  - split; [lia|]. split; [lia|].
    by replace (monthIndex (n + c) - monthIndex (s + c) - 1 + 1)
      with (monthIndex (n + c) - monthIndex (s + c)) by lia.
Qed.
End Maximal.

Lemma addMonthsClamped_value_fixed c (h : Heap) (date : loc) t N :
  - msPerDay ≤ c ≤ msPerDay →
  timeValue date h = Some t →
  - maxTime + 31 * msPerDay ≤ t ≤ maxTime →
  - maxTime + msPerDay ≤ firstDay (monthIndex (t + c) + N) * msPerDay →
  firstDay (monthIndex (t + c) + N) * msPerDay + 32 * msPerDay ≤ maxTime →
  let r := addMonthsClamped (fixedZone c) date (Some N) h in
  timeValue r.1 r.2 = Some (clampedLocal (t + c) N - c).
Proof.
  intros Hc Ht H1 H2 H3 r. unfold r. rewrite addMonthsClamped_run. cbn [fst snd].
  rewrite timeValue_new, Ht. by apply addMonths_fixed.
Qed.

(** X2.  In a time zone with a fixed offset, for [start < now] at least 64
    days inside the range of time values, the month count of the breakdown is
    the largest one that fits: [addMonthsClamped start count] is at or before
    [now], and [addMonthsClamped start (count + 1)] is after it. *)
Theorem months_count_maximal c (h : Heap) (startDate now : loc) s n :
  - msPerDay ≤ c ≤ msPerDay →
  timeValue startDate h = Some s → timeValue now h = Some n →
  wellInside s → wellInside n → s < n →
  let b := (calculateBreakdown (fixedZone c) startDate now h).1 in
  ∃ count anchor next,
    wholeMonths b = Some count ∧ 0 ≤ count ∧
    (let r := addMonthsClamped (fixedZone c) startDate (Some count) h in
     timeValue r.1 r.2 = Some anchor) ∧
    (let r := addMonthsClamped (fixedZone c) startDate (Some (count + 1)) h in
     timeValue r.1 r.2 = Some next) ∧
    anchor ≤ n < next.
Proof.
  intros Hc Hsd Hnw Hs Hn Hlt b.
  destruct (adjusted_maximal c Hc s n Hs Hn Hlt) as (adj & Hadj & Hrange & Hmax).
  destruct (breakdownValue_fixed c Hc s n Hs Hn Hlt)
    as (adj' & Hadj' & _ & _ & _ & Hb).
  assert (adj' = adj) as -> by congruence.
  pose proof (firstDay_local (n + c)) as HFn. rewrite firstDay_succ in HFn.
  pose proof (firstDay_local (s + c)) as HFs.
  pose proof (monthLength_range (monthIndex (n + c))).
  pose proof (monthLength_range (monthIndex (s + c))).
  assert (firstDay (monthIndex (s + c)) ≤ firstDay (monthIndex (s + c) + adj))
    by (apply firstDay_le; lia).
  assert (firstDay (monthIndex (s + c) + adj) ≤ firstDay (monthIndex (n + c)))
    by (apply firstDay_le; lia).
  assert (firstDay (monthIndex (s + c) + (adj + 1)) ≤ firstDay (monthIndex (n + c) + 1))
    by (apply firstDay_le; lia).
  assert (firstDay (monthIndex (s + c)) ≤ firstDay (monthIndex (s + c) + (adj + 1)))
    by (apply firstDay_le; lia).
  rewrite firstDay_succ in *.
  exists adj, (clampedLocal (s + c) adj - c), (clampedLocal (s + c) (adj + 1) - c).
  split.
  { unfold b, wholeMonths.
    rewrite calculateBreakdown_run by (eapply timeValue_Some_lt; eauto).
    cbn [fst]. rewrite Hsd, Hnw, Hb. cbn [years months].
    unfold nadd, nmul. cbn [mbind option_bind]. f_equal.
    apply (years_months adj). lia. }
  split; [lia|].
  split; [apply addMonthsClamped_value_fixed; try done;
          unfold wellInside, msPerDay, maxTime in *; lia|].
  split; [apply addMonthsClamped_value_fixed; try done;
          unfold wellInside, msPerDay, maxTime in *; lia|].
  done.
Qed.

Lemma firstDay_add_le k (j : nat) : firstDay (k + Z.of_nat j) ≤ firstDay k + 31 * Z.of_nat j.
Proof.
  induction j as [|j IH]; [rewrite Z.add_0_r; lia|].
  replace (k + Z.of_nat (S j)) with (k + Z.of_nat j + 1) by lia.
  rewrite firstDay_succ. pose proof (monthLength_range (k + Z.of_nat j)). lia.
Qed.

Lemma firstDay_add_bound k j : 0 ≤ j → firstDay (k + j) ≤ firstDay k + 31 * j.
Proof.
  intros H. pose proof (firstDay_add_le k (Z.to_nat j)) as Hb.
  rewrite Z2Nat.id in Hb by done. done.
Qed.

(** X3.  In a time zone with a fixed offset, for [k >= 0], [start] at least
    64 days inside the range of time values and [start] moved on by
    [31 * (k + 1)] days as well: the breakdown from [start] to
    [addMonthsClamped start k] is [k] months, as years and months, and no
    days, hours, minutes or seconds. *)
Theorem breakdown_of_whole_months c (h : Heap) (startDate : loc) s k :
  - msPerDay ≤ c ≤ msPerDay →
  timeValue startDate h = Some s →
  0 ≤ k →
  wellInside s → wellInside (s + 31 * (k + 1) * msPerDay) →
  let later := addMonthsClamped (fixedZone c) startDate (Some k) h in
  (calculateBreakdown (fixedZone c) startDate later.1 later.2).1
  = breakdownOf (Some (k / 12)) (Some (k mod 12))
                (Some 0) (Some 0) (Some 0) (Some 0).
Proof.
  intros Hc Hsd Hk Hs Hs' later.
  assert (Hl : (startDate < length h)%nat) by (eapply timeValue_Some_lt; eauto).
  pose proof (firstDay_local (s + c)) as HFs. rewrite firstDay_succ in HFs.
  pose proof (monthLength_range (monthIndex (s + c))) as Hlen.
  pose proof (firstDay_add_bound (monthIndex (s + c)) k Hk) as Hup.
  pose proof (firstDay_add_bound (monthIndex (s + c)) (k + 1) ltac:(lia)) as Hup'.
  assert (Hlow : firstDay (monthIndex (s + c)) ≤ firstDay (monthIndex (s + c) + k))
    by (apply firstDay_le; lia).
  pose proof (clampedLocal_bounds (s + c) k) as Hb.
  replace (monthIndex (s + c) + k + 1) with (monthIndex (s + c) + (k + 1)) in Hb by lia.
  set (n := clampedLocal (s + c) k - c) in *.
  assert (Hv : (addMonthsValue (fixedZone c) (Some s) (Some k)).1 = Some n).
  { apply addMonths_fixed; [done|..]; unfold wellInside, msPerDay, maxTime in *; lia. }
  unfold later. rewrite addMonthsClamped_run. cbn [fst snd]. rewrite Hsd, Hv.
  rewrite calculateBreakdown_run by (rewrite length_app; simpl; lia).
  cbn [fst]. rewrite timeValue_new, timeValue_app_l, Hsd by done.
  destruct (Z.eq_dec k 0) as [->|Hk0].
  { pose proof (clampedLocal_0 (s + c)).
    rewrite breakdownValue_not_after by (unfold n; lia). reflexivity. }
  assert (Hlt : s < n).
  { assert (firstDay (monthIndex (s + c) + 1) ≤ firstDay (monthIndex (s + c) + k))
      by (apply firstDay_le; lia).
    rewrite firstDay_succ in *. unfold n, msPerDay in *. lia. }
  assert (Hn : wellInside n) by (unfold wellInside, n, msPerDay, maxTime in *; lia).
  destruct (clampedLocal_fields c (s + c) k) as (Hmi & _). fold n in Hmi.
  destruct (monthAnchor_fixed c Hc s n Hs Hn Hlt)
    as (adj & Hadj & _ & _ & _ & Hcase).
  destruct (breakdownValue_fixed c Hc s n Hs Hn Hlt)
    as (adj' & Hadj' & _ & _ & _ & Hb').
  assert (adj' = adj) as -> by congruence.
  rewrite Hmi in Hcase.
  replace (monthIndex (s + c) + k - monthIndex (s + c)) with k in Hcase by lia.
  fold n in Hcase.
  destruct Hcase as [(-> & _)|(_ & Hbad & _)]; [|lia].
  rewrite Hb'. fold n. replace (n - n) with 0 by lia. reflexivity.
Qed.

Lemma breakdown_of_whole_months_witness :
  let later := addMonthsClamped (fixedZone 0) 0%nat (Some 25) [Some 1580428800000] in
  (calculateBreakdown (fixedZone 0) 0%nat later.1 later.2).1
  = breakdownOf (Some (25 / 12)) (Some (25 mod 12))
                (Some 0) (Some 0) (Some 0) (Some 0).
Proof.
  apply (breakdown_of_whole_months 0 [Some 1580428800000] 0%nat 1580428800000 25);
    [ vm_compute; split; discriminate | reflexivity | vm_compute; discriminate
    | vm_compute; split; discriminate | vm_compute; split; discriminate ].
Defined.

Lemma whole_seconds_arith r :
  0 ≤ r →
  r / dayMs * 86400 + r mod dayMs / hourMs * 3600
  + r mod hourMs / minuteMs * 60 + r mod minuteMs / 1000 = r / 1000.
Proof.
  intros H. change dayMs with 86400000. change hourMs with 3600000.
  change minuteMs with 60000. Z.div_mod_to_equations. lia.
Qed.

(** The two counters of the breakdown of [s] and [n]. *)
Lemma breakdown_counters c s n :
  - msPerDay ≤ c ≤ msPerDay → wellInside s → wellInside n →
  ∃ m w,
    wholeMonths (breakdownValue (fixedZone c) (Some s) (Some n)) = Some m ∧
    wholeSeconds (breakdownValue (fixedZone c) (Some s) (Some n)) = Some w ∧
    0 ≤ m ∧ 0 ≤ w ∧
    ((n ≤ s ∧ m = 0 ∧ w = 0) ∨
     (s < n ∧
      clampedLocal (s + c) m - c ≤ n < clampedLocal (s + c) (m + 1) - c ∧
      w = (n - (clampedLocal (s + c) m - c)) / 1000)).
Proof.
  intros Hc Hs Hn. destruct (Z.le_gt_cases n s) as [Hle|Hlt].
  { exists 0, 0. rewrite breakdownValue_not_after by done.
    split; [done|]. split; [done|]. split; [done|]. split; [done|]. by left. }
  destruct (adjusted_maximal c Hc s n Hs Hn ltac:(lia)) as (adj & Hadj & Hrange & Hmax).
  destruct (breakdownValue_fixed c Hc s n Hs Hn ltac:(lia))
    as (adj' & Hadj' & _ & _ & Hr & Hb).
  assert (adj' = adj) as -> by congruence.
  exists adj, ((n - (clampedLocal (s + c) adj - c)) / 1000).
  rewrite Hb. unfold wholeMonths, wholeSeconds.
  cbn [years months days hours minutes seconds].
  unfold nadd, nmul. cbn [mbind option_bind].
  split; [f_equal; apply (years_months adj); lia|].
  split; [f_equal; by apply whole_seconds_arith|].
  split; [lia|]. split; [apply Z.div_pos; lia|]. right. split; [lia|done].
Qed.

(** X4.  In a time zone with a fixed offset, for [start], [now1] and [now2]
    at least 64 days inside the range of time values, the timer never runs
    backwards: for [now1 <= now2] the breakdown of [now2] has more whole
    months than that of [now1], or as many and at least as many seconds
    beyond them. *)
Theorem breakdown_never_runs_back c (h : Heap) (startDate now1 now2 : loc) s n1 n2 :
  - msPerDay ≤ c ≤ msPerDay →
  timeValue startDate h = Some s →
  timeValue now1 h = Some n1 → timeValue now2 h = Some n2 →
  wellInside s → wellInside n1 → wellInside n2 →
  n1 ≤ n2 →
  let b1 := (calculateBreakdown (fixedZone c) startDate now1 h).1 in
  let b2 := (calculateBreakdown (fixedZone c) startDate now2 h).1 in
  ∃ m1 w1 m2 w2,
    wholeMonths b1 = Some m1 ∧ wholeSeconds b1 = Some w1 ∧
    wholeMonths b2 = Some m2 ∧ wholeSeconds b2 = Some w2 ∧
    (m1 < m2 ∨ (m1 = m2 ∧ w1 ≤ w2)).
Proof.
  intros Hc Hsd H1 H2 Hs Hn1 Hn2 Hle b1 b2.
  assert (Hl : (startDate < length h)%nat) by (eapply timeValue_Some_lt; eauto).
  assert (Hl1 : (now1 < length h)%nat) by (eapply timeValue_Some_lt; eauto).
  assert (Hl2 : (now2 < length h)%nat) by (eapply timeValue_Some_lt; eauto).
  unfold b1, b2. rewrite !calculateBreakdown_run by done. cbn [fst].
  rewrite Hsd, H1, H2.
  destruct (breakdown_counters c s n1 Hc Hs Hn1) as (m1 & w1 & Hm1 & Hw1 & Hp1 & Hq1 & C1).
  destruct (breakdown_counters c s n2 Hc Hs Hn2) as (m2 & w2 & Hm2 & Hw2 & Hp2 & Hq2 & C2).
  exists m1, w1, m2, w2. do 4 (split; [done|]).
  destruct C1 as [(_ & -> & ->)|(Hlt1 & Hr1 & ->)]; [lia|].
  destruct C2 as [(Hbad & _)|(Hlt2 & Hr2 & ->)]; [lia|].
  destruct (Z.lt_trichotomy m1 m2) as [Hlt|[->|Hgt]]; [by left| |].
  - right. split; [done|]. apply Z.div_le_mono; lia.
  - exfalso.
    assert (clampedLocal (s + c) (m2 + 1) ≤ clampedLocal (s + c) m1).
    { destruct (Z.eq_dec (m2 + 1) m1) as [->|]; [lia|].
      apply Z.lt_le_incl, clampedLocal_lt. lia. }
    lia.
Qed.

Lemma breakdown_never_runs_back_witness :
  let h := [Some 1612051200000; Some 1617062400000; Some 1617148800000] in
  let b1 := (calculateBreakdown (fixedZone 0) 0%nat 1%nat h).1 in
  let b2 := (calculateBreakdown (fixedZone 0) 0%nat 2%nat h).1 in
  ∃ m1 w1 m2 w2,
    wholeMonths b1 = Some m1 ∧ wholeSeconds b1 = Some w1 ∧
    wholeMonths b2 = Some m2 ∧ wholeSeconds b2 = Some w2 ∧
    (m1 < m2 ∨ (m1 = m2 ∧ w1 ≤ w2)).
Proof.
  apply (breakdown_never_runs_back 0 _ 0%nat 1%nat 2%nat
           1612051200000 1617062400000 1617148800000);
    [ vm_compute; split; discriminate | reflexivity | reflexivity | reflexivity
    | vm_compute; split; discriminate | vm_compute; split; discriminate
    | vm_compute; split; discriminate | vm_compute; discriminate ].
Defined.

Lemma floor_units_arith r :
  0 ≤ r →
  r mod dayMs / hourMs = (r / hourMs) mod 24 ∧
  r mod hourMs / minuteMs = (r / minuteMs) mod 60 ∧
  r mod minuteMs / 1000 = (r / 1000) mod 60.
Proof.
  intros H. change dayMs with 86400000. change hourMs with 3600000.
  change minuteMs with 60000. repeat split; Z.div_mod_to_equations; lia.
Qed.

(** X5.  In a time zone with a fixed offset, for [start < now] both at
    least 64 days inside the range of time values, the days, hours, minutes
    and seconds of the loop are the floor divisions of the one gap between
    [now] and the month-adjusted anchor, reduced to a clock reading. *)
Theorem loop_units_are_floor_units c (h : Heap) (startDate now : loc) s n :
  - msPerDay ≤ c ≤ msPerDay →
  timeValue startDate h = Some s → timeValue now h = Some n →
  wellInside s → wellInside n → s < n →
  loopUnits (calculateBreakdown (fixedZone c) startDate now h).1
  = independentUnits
      (Some n - monthAnchorValue (fixedZone c) (Some s) (Some n))%num.
Proof.
  intros Hc Hsd Hnw Hs Hn Hlt.
  rewrite calculateBreakdown_run by (eapply timeValue_Some_lt; eauto).
  cbn [fst]. rewrite Hsd, Hnw.
  destruct (breakdownValue_fixed c Hc s n Hs Hn Hlt)
    as (adj & _ & Hanchor & _ & Hr & Hb).
  rewrite Hb, Hanchor. unfold loopUnits, independentUnits, nfloordiv, nsub.
  cbn [mbind option_bind fmap option_fmap option_map days hours minutes seconds].
  destruct (floor_units_arith _ Hr) as (-> & -> & ->). done.
Qed.

Lemma loop_units_are_floor_units_witness :
  loopUnits (calculateBreakdown (fixedZone 0) 0%nat 1%nat
               (twoDates (Some 1612051200000) (Some 1617062400999))).1
  = independentUnits
      (Some 1617062400999
       - monthAnchorValue (fixedZone 0) (Some 1612051200000) (Some 1617062400999))%num.
Proof.
  apply (loop_units_are_floor_units 0 _ 0%nat 1%nat 1612051200000 1617062400999);
    [ vm_compute; split; discriminate | reflexivity | reflexivity
    | vm_compute; split; discriminate | vm_compute; split; discriminate
    | reflexivity ].
Defined.

Lemma clampedLocal_same_day L N :
  DateFromTime L ≤ monthLengthSeen (monthIndex L + N) →
  clampedLocal L N
  = (firstDay (monthIndex L + N) + DateFromTime L - 1) * msPerDay + TimeWithinDay L.
Proof. intros H. unfold clampedLocal. by rewrite Z.min_l by done. Qed.

Lemma clampedLocal_zero L : YearFromTime L ≠ 0 → clampedLocal L 0 = L.
Proof.
  intros Hy. pose proof (DateFromTime_monthLength L) as HD.
  rewrite clampedLocal_same_day, Z.add_0_r.
  - rewrite <- Day_firstDay. apply MakeDate_Day.
  - rewrite Z.add_0_r, monthLengthSeen_eq; [lia|]. by rewrite monthIndex_div.
Qed.

(** X6.  In a time zone with a fixed offset, for a date at least 64 days
    inside the range of time values and not in year 0,
    [addMonthsClamped date 0] returns a new date with the time value of
    [date]; [date] keeps its time value. *)
Theorem addMonthsClamped_zero c (h : Heap) (date : loc) t :
  - msPerDay ≤ c ≤ msPerDay →
  timeValue date h = Some t →
  wellInside t →
  YearFromTime (t + c) ≠ 0 →
  let r := addMonthsClamped (fixedZone c) date (Some 0) h in
  timeValue r.1 r.2 = Some t ∧ r.1 ≠ date ∧ timeValue date r.2 = Some t.
Proof.
  intros Hc Ht Hin Hy r.
  assert (Hl : (date < length h)%nat) by (eapply timeValue_Some_lt; eauto).
  pose proof (firstDay_local (t + c)) as HF. rewrite firstDay_succ in HF.
  pose proof (monthLength_range (monthIndex (t + c))).
  split; [|split].
  - unfold r. rewrite (addMonthsClamped_value_fixed c h date t 0); try done.
    + rewrite clampedLocal_zero by done. f_equal. lia.
    + unfold wellInside, msPerDay, maxTime in *. lia.
    + rewrite Z.add_0_r. unfold wellInside, msPerDay, maxTime in *. lia.
    + rewrite Z.add_0_r. unfold wellInside, msPerDay, maxTime in *. lia.
  - unfold r. rewrite addMonthsClamped_run. cbn [fst]. lia.
  - unfold r. rewrite addMonthsClamped_run. cbn [snd].
    by rewrite timeValue_app_l.
Qed.

Lemma addMonthsClamped_zero_witness :
  let r := addMonthsClamped (fixedZone 0) 0%nat (Some 0) [Some 1580428800000] in
  timeValue r.1 r.2 = Some 1580428800000 ∧ r.1 ≠ 0%nat ∧
  timeValue 0%nat r.2 = Some 1580428800000.
Proof.
  apply (addMonthsClamped_zero 0 [Some 1580428800000] 0%nat 1580428800000);
    [ vm_compute; split; discriminate | reflexivity
    | vm_compute; split; discriminate | vm_compute; discriminate ].
Defined.

(** X7.  In a time zone with a fixed offset, for a date and the first days
    of both target months at least 64 days inside the range of time values,
    [addMonthsClamped date] is strictly increasing in the number of
    months. *)
Theorem addMonthsClamped_increasing c (h : Heap) (date : loc) t N1 N2 :
  - msPerDay ≤ c ≤ msPerDay →
  timeValue date h = Some t →
  wellInside t →
  wellInside (firstDay (monthIndex (t + c) + N1) * msPerDay) →
  wellInside (firstDay (monthIndex (t + c) + N2) * msPerDay) →
  N1 < N2 →
  let r1 := addMonthsClamped (fixedZone c) date (Some N1) h in
  let r2 := addMonthsClamped (fixedZone c) date (Some N2) h in
  ∃ u1 u2, timeValue r1.1 r1.2 = Some u1 ∧ timeValue r2.1 r2.2 = Some u2 ∧ u1 < u2.
Proof.
  intros Hc Ht Hin H1 H2 Hlt r1 r2.
  exists (clampedLocal (t + c) N1 - c), (clampedLocal (t + c) N2 - c).
  split; [apply addMonthsClamped_value_fixed; try done;
          unfold wellInside, msPerDay, maxTime in *; lia|].
  split; [apply addMonthsClamped_value_fixed; try done;
          unfold wellInside, msPerDay, maxTime in *; lia|].
  pose proof (clampedLocal_lt (t + c) N1 N2 Hlt). lia.
Qed.

Lemma addMonthsClamped_increasing_witness :
  let r1 := addMonthsClamped (fixedZone 0) 0%nat (Some 1) [Some 1580428800000] in
  let r2 := addMonthsClamped (fixedZone 0) 0%nat (Some 2) [Some 1580428800000] in
  ∃ u1 u2, timeValue r1.1 r1.2 = Some u1 ∧ timeValue r2.1 r2.2 = Some u2 ∧ u1 < u2.
Proof.
  apply (addMonthsClamped_increasing 0 [Some 1580428800000] 0%nat 1580428800000 1 2);
    [ vm_compute; split; discriminate | reflexivity
    | vm_compute; split; discriminate | vm_compute; split; discriminate
    | vm_compute; split; discriminate | reflexivity ].
Defined.

(** X8.  In a time zone with a fixed offset, from a day of the month up to
    the 28th, with the date and the first days of the months [a] and [a + b]
    months on at least 64 days inside the range of time values: adding [a]
    months and then [b] months to the result gives the date that adding
    [a + b] months gives. *)
Theorem addMonthsClamped_compose c (h : Heap) (date : loc) t a b :
  - msPerDay ≤ c ≤ msPerDay →
  timeValue date h = Some t →
  wellInside t →
  wellInside (firstDay (monthIndex (t + c) + a) * msPerDay) →
  wellInside (firstDay (monthIndex (t + c) + (a + b)) * msPerDay) →
  DateFromTime (t + c) ≤ 28 →
  let first := addMonthsClamped (fixedZone c) date (Some a) h in
  let second := addMonthsClamped (fixedZone c) first.1 (Some b) first.2 in
  let direct := addMonthsClamped (fixedZone c) date (Some (a + b)) h in
  ∃ u, timeValue second.1 second.2 = Some u ∧ timeValue direct.1 direct.2 = Some u.
Proof.
  intros Hc Ht Hin Ha Hab HD first second direct.
  pose proof (monthLengthSeen_le (monthIndex (t + c) + a)) as Hsa.
  pose proof (monthLengthSeen_le (monthIndex (t + c) + (a + b))) as Hsab.
  pose proof (DateFromTime_monthLength (t + c)) as HD1.
  pose proof (TimeWithinDay_range (t + c)) as Htod.
  set (u1 := clampedLocal (t + c) a - c).
  assert (H1 : timeValue first.1 first.2 = Some u1).
  { apply addMonthsClamped_value_fixed; try done;
      unfold wellInside, msPerDay, maxTime in *; lia. }
  destruct (clampedLocal_fields c (t + c) a) as (Hk & Hd & Htd). fold u1 in Hk, Hd, Htd.
  rewrite Z.min_l in Hd by lia.
  assert (Hu1 : u1 = (firstDay (monthIndex (t + c) + a) + DateFromTime (t + c) - 1)
                     * msPerDay + TimeWithinDay (t + c) - c).
  { unfold u1. rewrite clampedLocal_same_day by lia. done. }
  exists (clampedLocal (t + c) (a + b) - c). split.
  - unfold second.
    rewrite (addMonthsClamped_value_fixed c first.2 first.1 u1 b); try done.
    + f_equal. unfold clampedLocal. rewrite Hk, Hd, Htd.
      by replace (monthIndex (t + c) + a + b) with (monthIndex (t + c) + (a + b)) by lia.
    + rewrite Hu1. unfold wellInside, msPerDay, maxTime in *. lia.
    + rewrite Hk.
      replace (monthIndex (t + c) + a + b) with (monthIndex (t + c) + (a + b)) by lia.
      unfold wellInside, msPerDay, maxTime in *. lia.
    + rewrite Hk.
      replace (monthIndex (t + c) + a + b) with (monthIndex (t + c) + (a + b)) by lia.
      unfold wellInside, msPerDay, maxTime in *. lia.
  - apply addMonthsClamped_value_fixed; try done;
      unfold wellInside, msPerDay, maxTime in *; lia.
Qed.

Lemma addMonthsClamped_compose_witness :
  let h := [Some 1579046400000] in
  let first := addMonthsClamped (fixedZone 0) 0%nat (Some 1) h in
  let second := addMonthsClamped (fixedZone 0) first.1 (Some 1) first.2 in
  let direct := addMonthsClamped (fixedZone 0) 0%nat (Some (1 + 1)) h in
  ∃ u, timeValue second.1 second.2 = Some u ∧ timeValue direct.1 direct.2 = Some u.
Proof.
  apply (addMonthsClamped_compose 0 [Some 1579046400000] 0%nat 1579046400000 1 1);
    [ vm_compute; split; discriminate | reflexivity
    | vm_compute; split; discriminate | vm_compute; split; discriminate
    | vm_compute; split; discriminate | vm_compute; discriminate ].
Defined.

Lemma nadd_NaN_r a : (a + NaN)%num = NaN.
Proof. by destruct a. Qed.
Lemma nsub_NaN_r a : (a - NaN)%num = NaN.
Proof. by destruct a. Qed.
Lemma ngtb_NaN_l a : ngtb NaN a = false.
Proof. done. Qed.
Lemma ngtb_NaN_r a : ngtb a NaN = false.
Proof. by destruct a. Qed.
Lemma nleb_NaN_r a : nleb a NaN = false.
Proof. by destruct a. Qed.

Lemma addMonthsValue_NaN_months tz t : (addMonthsValue tz t NaN).1 = NaN.
Proof.
  unfold addMonthsValue. cbn [fst]. rewrite nadd_NaN_r.
  destruct (t ≫= TimeClip) as [t0|]; [|done]. cbn [mbind option_bind].
  destruct (setDateValue tz (Some 1) t0) as [t1|]; [|done]. done.
Qed.

Lemma addMonthsValue_NaN_date tz N : (addMonthsValue tz NaN N).1 = NaN.
Proof. done. Qed.

Lemma breakdownValue_NaN tz s n :
  s = NaN ∨ n = NaN →
  breakdownValue tz s n = breakdownOf NaN NaN NaN NaN NaN NaN.
Proof.
  intros H.
  assert (Hle : nleb n s = false).
  { destruct H as [-> | ->]; [apply nleb_NaN_r|done]. }
  assert (Htot : totalMonthsValue tz (s ≫= TimeClip) n = NaN).
  { unfold totalMonthsValue. destruct H as [-> | ->]; [|done].
    cbn [mbind option_bind localField fmap option_fmap option_map].
    by rewrite !nsub_NaN_r. }
  assert (Hdec : decrements tz (s ≫= TimeClip) n = false).
  { unfold decrements. rewrite Htot, addMonthsValue_NaN_months. done. }
  assert (Hadj : adjustedMonthsValue tz (s ≫= TimeClip) n = NaN).
  { unfold adjustedMonthsValue. by rewrite Hdec. }
  assert (Ha : monthAnchorValue tz (s ≫= TimeClip) n = NaN).
  { unfold monthAnchorValue. by rewrite Hadj, addMonthsValue_NaN_months. }
  unfold breakdownValue. rewrite Hle, Hadj, Ha.
  unfold afterDays, afterHours, afterMinutes, peelDays, peelHours, peelMinutes.
  cbn [mbind option_bind]. rewrite !nsub_NaN_r. done.
Qed.

(** X1.  When one of its two dates is invalid, [calculateBreakdown] returns
    NaN in all six fields, in every time zone; on an invalid date
    [calculateOverrunPercent] returns NaN. *)
Theorem invalid_dates_give_NaN tz (h : Heap) (startDate now : loc) :
  (startDate < length h)%nat → (now < length h)%nat →
  (timeValue startDate h = NaN ∨ timeValue now h = NaN →
   (calculateBreakdown tz startDate now h).1
   = breakdownOf NaN NaN NaN NaN NaN NaN) ∧
  (timeValue now h = NaN → (calculateOverrunPercent now h).1 = None).
Proof.
  intros Hs Hn. split.
  - intros H. rewrite calculateBreakdown_run by done. cbn [fst].
    by apply breakdownValue_NaN.
  - intros H. unfold calculateOverrunPercent.
    rewrite overrunPercentOf_run, H, PLANNED_DURATION_MS_value. done.
Qed.

Lemma invalid_dates_give_NaN_witness :
  (calculateBreakdown toronto 0%nat 1%nat (twoDates (Some 0) NaN)).1
  = breakdownOf NaN NaN NaN NaN NaN NaN.
Proof.
  refine (proj1 (invalid_dates_give_NaN toronto (twoDates (Some 0) NaN)
                   0%nat 1%nat _ _) _);
    [ vm_compute; lia | vm_compute; lia | right; reflexivity ].
Defined.

Lemma percent_mono (x1 x2 p : Z) :
  0 < p → x1 ≤ x2 →
  (inject_Z x1 / inject_Z p * 100 <= inject_Z x2 / inject_Z p * 100)%Q.
Proof.
  intros Hp Hx. apply Qmult_le_compat_r; [|done].
  unfold Qdiv. apply Qmult_le_compat_r.
  - unfold Qle, inject_Z. simpl. lia.
  - apply Qlt_le_weak, Qinv_lt_0_compat. by apply inject_Z_pos.
Qed.

Lemma timeValue_moduleHeap (rest : Heap) :
  timeValue BREAK_GROUND_DATE (moduleHeap ++ rest) = Some 1320814800000 ∧
  timeValue PROJECTED_OPEN_DATE (moduleHeap ++ rest) = Some 1609390800000.
Proof. done. Qed.

(** The overrun on a store that begins with the module's constants. *)
Lemma overrun_value (rest : Heap) (now : loc) n :
  timeValue now (moduleHeap ++ rest) = Some n →
  (calculateOverrunPercent now (moduleHeap ++ rest)).1 =
  Some (if n - 1609390800000 <=? 0 then 0%Q
        else (inject_Z (n - 1609390800000) / inject_Z 288576000000 * 100)%Q).
Proof.
  intros Hn. unfold calculateOverrunPercent.
  rewrite overrunPercentOf_run, Hn, (proj1 (timeValue_moduleHeap rest)),
    PLANNED_DURATION_MS_value.
  cbn [fst]. unfold nleb, nsub, npercent. cbn [mbind option_bind].
  change (288576000000 <=? 0) with false. cbv iota.
  replace (n - 1320814800000 - 288576000000) with (n - 1609390800000) by lia.
  by destruct (n - 1609390800000 <=? 0).
Qed.

(** X9.  With the module's constants, the overrun percentage, taken as the
    exact quotient, is never negative, is 0 up to the projected opening date
    and positive after it, and does not decrease as [now] advances. *)
Theorem overrun_never_decreases
    (rest : Heap) (now1 now2 : loc) (n1 n2 : Z) :
  let h := moduleHeap ++ rest in
  timeValue now1 h = Some n1 → timeValue now2 h = Some n2 →
  n1 ≤ n2 →
  ∃ q1 q2,
    (calculateOverrunPercent now1 h).1 = Some q1 ∧
    (calculateOverrunPercent now2 h).1 = Some q2 ∧
    (0 <= q1)%Q ∧ (q1 <= q2)%Q ∧
    (n1 ≤ 1609390800000 → q1 = 0%Q) ∧
    (1609390800000 < n1 → (0 < q1)%Q).
Proof.
  intros h H1 H2 Hle. unfold h in *.
  rewrite (overrun_value rest now1 n1 H1), (overrun_value rest now2 n2 H2).
  eexists _, _. split; [reflexivity|]. split; [reflexivity|].
  assert (Hp : 0 < 288576000000) by lia.
  destruct (percent_sign (n1 - 1609390800000) 288576000000 Hp) as [Hpos1 Hneg1].
  destruct (percent_sign (n2 - 1609390800000) 288576000000 Hp) as [Hpos2 Hneg2].
  destruct (Z.leb_spec (n1 - 1609390800000) 0) as [Ho1|Ho1];
  destruct (Z.leb_spec (n2 - 1609390800000) 0) as [Ho2|Ho2].
  - repeat split; try done; try lia.
  - repeat split; try done; try lia.
    apply Qlt_le_weak, Hpos2. lia.
  - lia.
  - split; [apply Qlt_le_weak, Hpos1; lia|].
    split; [apply percent_mono; lia|].
    split; [lia|]. intros _; apply Hpos1; lia.
Qed.

Lemma overrun_never_decreases_witness :
  let h := moduleHeap ++ [Some 1700000000000; Some 1741509000000] in
  ∃ q1 q2,
    (calculateOverrunPercent 2%nat h).1 = Some q1 ∧
    (calculateOverrunPercent 3%nat h).1 = Some q2 ∧
    (0 <= q1)%Q ∧ (q1 <= q2)%Q.
Proof.
  destruct (overrun_never_decreases
              [Some 1700000000000; Some 1741509000000] 2%nat 3%nat
              1700000000000 1741509000000)
    as (q1 & q2 & H1 & H2 & H3 & H4 & _);
    [ reflexivity | reflexivity | vm_compute; discriminate | ].
  exists q1, q2. split; [exact H1|]. split; [exact H2|]. split; [exact H3|exact H4].
Defined.

(** X10.  In every time zone, a tick at or before the projected opening date
    shows the all-zero breakdown on the second card and an overrun of 0; a
    tick after it shows the positive overrun
    [(clock - projected opening) / planned * 100]; a tick at or before the
    break-ground date shows the all-zero breakdown on the first card. *)
Theorem tick_cards_agree tz (rest : Heap) (clock : Z) :
  inRange clock →
  let state := (tick tz clock (moduleHeap ++ rest)).1 in
  (clock ≤ 1320814800000 → breakGround state = zeroBreakdown) ∧
  (clock ≤ 1609390800000 →
   projectedOpen state = zeroBreakdown ∧ overrunPercent state = Some 0%Q) ∧
  (1609390800000 < clock →
   ∃ q, overrunPercent state = Some q ∧ (0 < q)%Q ∧
        q = (inject_Z (clock - 1609390800000) / inject_Z 288576000000 * 100)%Q).
Proof.
  intros Hin state. unfold state.
  rewrite tick_run by (rewrite length_app; simpl; lia). cbn [fst breakGround projectedOpen overrunPercent].
  destruct (timeValue_moduleHeap rest) as [-> ->].
  rewrite (TimeClip_inRange clock Hin).
  assert (Hov : (overrunPercentOf PLANNED_DURATION_MS (length (moduleHeap ++ rest))
                   ((moduleHeap ++ rest) ++ [Some clock])).1 =
                Some (if clock - 1609390800000 <=? 0 then 0%Q
                      else (inject_Z (clock - 1609390800000)
                            / inject_Z 288576000000 * 100)%Q)).
  { rewrite <- app_assoc.
    apply (overrun_value (rest ++ [Some clock]) (length (moduleHeap ++ rest)) clock).
    rewrite app_assoc. apply timeValue_new. }
  rewrite Hov.
  split; [intros H; by apply breakdownValue_not_after|].
  split.
  - intros H. split; [by apply breakdownValue_not_after|].
    destruct (Z.leb_spec (clock - 1609390800000) 0); [done|lia].
  - intros H. destruct (Z.leb_spec (clock - 1609390800000) 0); [lia|].
    eexists. split; [reflexivity|]. split; [|reflexivity].
    apply percent_sign; lia.
Qed.

Lemma tick_cards_agree_witness :
  let state := (tick toronto 1741509000000 (moduleHeap ++ [])).1 in
  ∃ q, overrunPercent state = Some q ∧ (0 < q)%Q.
Proof.
  destruct (tick_cards_agree toronto [] 1741509000000) as (_ & _ & H);
    [vm_compute; split; discriminate|].
  destruct (H ltac:(reflexivity)) as (q & Hq & Hpos & _).
  exists q. split; [exact Hq|exact Hpos].
Defined.

(** * What the card shows *)

Lemma range_check (P : Z → bool) (n : nat) :
  forallb P (map Z.of_nat (seq 0 n)) = true →
  ∀ v, 0 ≤ v < Z.of_nat n → P v = true.
Proof.
  intros H v Hv. rewrite forallb_forall in H. apply H.
  apply in_map_iff. exists (Z.to_nat v). split; [lia|]. apply in_seq. lia.
Qed.

Lemma reads_as_spec (s : string) v :
  match readInteger s with Some r => r =? v | None => false end = true →
  readInteger s = Some v.
Proof.
  destruct (readInteger s) as [r|]; [|done]. intros H. f_equal. lia.
Qed.

Lemma twoDigitFormatter_small v :
  0 ≤ v ≤ 99 →
  String.length (twoDigitFormatter (Some v)) = 2%nat ∧
  readInteger (twoDigitFormatter (Some v)) = Some v.
Proof.
  intros Hv.
  pose proof (range_check
    (fun v => (String.length (twoDigitFormatter (Some v)) =? 2)%nat
              && match readInteger (twoDigitFormatter (Some v)) with
                 | Some r => r =? v | None => false end)
    100 ltac:(vm_compute; reflexivity) v ltac:(lia)) as H.
  apply andb_true_iff in H as [H1 H2].
  split; [by apply Nat.eqb_eq|by apply reads_as_spec].
Qed.

Lemma toLocaleString_small v :
  0 ≤ v ≤ 999 → readInteger (toLocaleString (Some v)) = Some v.
Proof.
  intros Hv. apply reads_as_spec.
  exact (range_check
    (fun v => match readInteger (toLocaleString (Some v)) with
              | Some r => r =? v | None => false end)
    1000 ltac:(vm_compute; reflexivity) v ltac:(lia)).
Qed.

(** X11.  On an integer from 0 to 99, [twoDigitFormatter] writes exactly two
    characters, and what it and [toLocaleString] write reads back to the
    integer. *)
Theorem formatters_read_back v :
  0 ≤ v ≤ 99 →
  String.length (twoDigitFormatter (Some v)) = 2%nat ∧
  readInteger (twoDigitFormatter (Some v)) = Some v ∧
  readInteger (toLocaleString (Some v)) = Some v.
Proof.
  intros Hv. destruct (twoDigitFormatter_small v Hv) as [H1 H2].
  split; [done|]. split; [done|]. apply toLocaleString_small. lia.
Qed.

Lemma formatters_read_back_witness :
  String.length (twoDigitFormatter (Some 7)) = 2%nat ∧
  readInteger (twoDigitFormatter (Some 7)) = Some 7 ∧
  readInteger (toLocaleString (Some 7)) = Some 7.
Proof. apply (formatters_read_back 7). vm_compute. split; discriminate. Defined.

(** X12.  In a time zone with a fixed offset, for [start] and [now] at least
    64 days inside the range of time values, the card shows the hours, the
    minutes and the seconds with exactly two characters each, and the months,
    days, hours, minutes and seconds it shows read back to the fields of the
    breakdown. *)
Theorem timer_card_reads_back c (h : Heap) (startDate now : loc) s n
    (title caption : string) :
  - msPerDay ≤ c ≤ msPerDay →
  timeValue startDate h = Some s → timeValue now h = Some n →
  wellInside s → wellInside n →
  let b := (calculateBreakdown (fixedZone c) startDate now h).1 in
  ∃ shownYears shownMonths shownDays shownHours shownMinutes shownSeconds,
    cardParts (TimerCard title caption b) =
      [ (shownYears, "years"%string); (shownMonths, "months"%string);
        (shownDays, "days"%string); (shownHours, "hours"%string);
        (shownMinutes, "minutes"%string); (shownSeconds, "seconds"%string) ] ∧
    String.length shownHours = 2%nat ∧
    String.length shownMinutes = 2%nat ∧
    String.length shownSeconds = 2%nat ∧
    readInteger shownMonths = months b ∧
    readInteger shownDays = days b ∧
    readInteger shownHours = hours b ∧
    readInteger shownMinutes = minutes b ∧
    readInteger shownSeconds = seconds b.
Proof.
  intros Hc Hsd Hnw Hs Hn b.
  assert (Hb : ∃ y mo d hh mi ss,
    b = breakdownOf (Some y) (Some mo) (Some d) (Some hh) (Some mi) (Some ss) ∧
    0 ≤ mo ≤ 11 ∧ 0 ≤ d ≤ 31 ∧ 0 ≤ hh ≤ 23 ∧ 0 ≤ mi ≤ 59 ∧ 0 ≤ ss ≤ 59).
  { unfold b. rewrite calculateBreakdown_run by (eapply timeValue_Some_lt; eauto).
    cbn [fst]. rewrite Hsd, Hnw.
    destruct (Z.le_gt_cases n s) as [Hle|Hlt].
    { rewrite breakdownValue_not_after by done.
      exists 0, 0, 0, 0, 0, 0. split; [done|]. lia. }
    destruct (breakdown_fixed_gap c Hc s n Hs Hn ltac:(lia))
      as (adj & r & Hadj & Hr & _ & _ & _ & Hbv & H32 & _).
    destruct (units_bounds r Hr) as (Hd & Hh & Hm & Hss).
    destruct (years_months adj Hadj) as (_ & _ & Hmo).
    pose proof (days_below r 32 Hr H32).
    eexists _, _, _, _, _, _. split; [exact Hbv|]. lia. }
  destruct Hb as (y & mo & d & hh & mi & ss & -> & Hmo & Hd & Hh & Hm & Hss).
  eexists _, _, _, _, _, _. split; [reflexivity|].
  cbn [hours minutes seconds months days breakdownOf].
  destruct (twoDigitFormatter_small hh ltac:(lia)) as [-> ->].
  destruct (twoDigitFormatter_small mi ltac:(lia)) as [-> ->].
  destruct (twoDigitFormatter_small ss ltac:(lia)) as [-> ->].
  rewrite !toLocaleString_small by lia. done.
Qed.

Lemma timer_card_reads_back_witness :
  let b := (calculateBreakdown (fixedZone 0) 0%nat 1%nat
              (twoDates (Some 1612051200000) (Some 1617062400999))).1 in
  ∃ shownYears shownMonths shownDays shownHours shownMinutes shownSeconds,
    cardParts (TimerCard "Time since" "since" b) =
      [ (shownYears, "years"%string); (shownMonths, "months"%string);
        (shownDays, "days"%string); (shownHours, "hours"%string);
        (shownMinutes, "minutes"%string); (shownSeconds, "seconds"%string) ] ∧
    String.length shownHours = 2%nat ∧
    String.length shownMinutes = 2%nat ∧
    String.length shownSeconds = 2%nat ∧
    readInteger shownMonths = months b ∧
    readInteger shownDays = days b ∧
    readInteger shownHours = hours b ∧
    readInteger shownMinutes = minutes b ∧
    readInteger shownSeconds = seconds b.
Proof.
  apply (timer_card_reads_back 0 _ 0%nat 1%nat 1612051200000 1617062400999);
    [ vm_compute; split; discriminate | reflexivity | reflexivity
    | vm_compute; split; discriminate | vm_compute; split; discriminate ].
Defined.

Lemma months_count_maximal_witness :
  let h := twoDates (Some 1612051200000) (Some 1617062400000) in
  let b := (calculateBreakdown (fixedZone 0) 0%nat 1%nat h).1 in
  ∃ count anchor next,
    wholeMonths b = Some count ∧ 0 ≤ count ∧
    (let r := addMonthsClamped (fixedZone 0) 0%nat (Some count) h in
     timeValue r.1 r.2 = Some anchor) ∧
    (let r := addMonthsClamped (fixedZone 0) 0%nat (Some (count + 1)) h in
     timeValue r.1 r.2 = Some next) ∧
    anchor ≤ 1617062400000 < next.
Proof.
  apply (months_count_maximal 0 _ 0%nat 1%nat 1612051200000 1617062400000);
    [ vm_compute; split; discriminate | reflexivity | reflexivity
    | vm_compute; split; discriminate | vm_compute; split; discriminate
    | reflexivity ].
Defined.
